(** * Sales-prediction regression app: the analytical pipeline of [src/App.tsx]

    The development embeds the data pipeline of the React application
    (type coercion of parsed rows, descriptive statistics, correlation
    matrix, model training and prediction) and proves the properties its
    specification states about it.

    - Numbers are ECMAScript numbers, that is IEEE-754 binary64 values:
      they are Rocq's primitive [float]s, whose operations round to
      nearest-even as the JavaScript operators do.
    - Objects used as dictionaries are [gmap]s; the rows of a parsed file,
      whose key order is observed through [Object.keys], are property lists.
    - An event handler is a function from the state of its component to the
      next state and the alerts it shows.
    - The packages [simple-statistics] and [ml-regression] are dependencies
      of the repository: the handlers take them as parameters, and the
      theorems hold for every implementation, unless they say otherwise. *)

From Stdlib Require Import ZArith Ascii Floats.
From stdpp Require Import base option list gmap strings.

Local Open Scope Z_scope.

(** ** The JavaScript runtime the program relies on *)

Module JS.

(** A value a row cell or a dictionary read can produce: a number, a string,
  or [undefined] (a read of an absent property). *)
Inductive value :=
| VNum (x : float)
| VStr (s : string)
| VUndefined.

Inductive type_tag := TNumber | TString | TUndefined.

Definition typeof (v : value) : type_tag :=
match v with
| VNum _ => TNumber
| VStr _ => TString
| VUndefined => TUndefined
end.

(** *** Decimal literals: [StrDecimalLiteral] and its numeric value *)

Definition is_digit (c : ascii) : bool :=
let n := N_of_ascii c in ((48 <=? n) && (n <=? 57))%N.

Definition digit_value (c : ascii) : Z := Z.of_N (N_of_ascii c) - 48.

(** The longest prefix of decimal digits, and what follows it. *)
Fixpoint DecimalDigits (s : string) : list ascii * string :=
match s with
| String c r =>
    if is_digit c then let '(ds, r') := DecimalDigits r in (c :: ds, r')
    else ([], s)
| EmptyString => ([], s)
end.

Definition digits_value (ds : list ascii) : Z :=
foldl (λ acc c, 10 * acc + digit_value c) 0 ds.

(** White space skipped by [parseFloat] and [Number]: the members of
  [StrWhiteSpaceChar] among the 8-bit characters of the model (TAB, LF,
  VT, FF, CR, SP). *)
Definition is_white_space (c : ascii) : bool :=
let n := N_of_ascii c in (((9 <=? n) && (n <=? 13)) || (n =? 32))%N.

Fixpoint TrimStart (s : string) : string :=
match s with
| String c r => if is_white_space c then TrimStart r else s
| EmptyString => s
end.

Definition TrimEnd (s : string) : string :=
String.rev (TrimStart (String.rev s)).

Definition Trim (s : string) : string := TrimEnd (TrimStart s).

Definition signed (neg : bool) (x : float) : float :=
if neg then (- x)%float else x.

(** The number value of [m * 10^e10] ([m >= 0]), rounded to nearest-even
  ([RoundMVResult]); [ndigits] bounds the count of decimal digits of [m]
  and only serves to answer the far overflow and underflow cases without
  building huge powers of ten. *)
Definition decimal_to_float (neg : bool) (m : Z) (ndigits : Z) (e10 : Z) : float :=
if m =? 0 then signed neg zero
else if 309 <=? e10 then signed neg infinity
else if ndigits + e10 <=? -324 then signed neg zero
else if 0 <=? e10 then
  signed neg (SF2Prim (binary_normalize prec emax (m * 10 ^ e10) 0 false))
else
  signed neg (SF2Prim (SFdiv prec emax
                        (S754_finite false (Z.to_pos m) 0)
                        (S754_finite false (Z.to_pos (10 ^ (- e10))) 0))).

(** [strip_prefix p s] is the rest of [s] after its prefix [p], when [s]
  starts with [p]. *)
Fixpoint strip_prefix (p s : string) : option string :=
match p, s with
| EmptyString, _ => Some s
| String a p', String b s' => if bool_decide (a = b) then strip_prefix p' s' else None
| String _ _, EmptyString => None
end.

Definition take_sign (s : string) : bool * string :=
match s with
| String "-" r => (true, r)
| String "+" r => (false, r)
| _ => (false, s)
end.

Definition ExponentPart (s : string) : Z * string :=
match s with
| String c r =>
    if bool_decide (c = "e"%char) || bool_decide (c = "E"%char) then
      let '(eneg, r1) := take_sign r in
      let '(ed, r2) := DecimalDigits r1 in
      match ed with
      | [] => (0, s)
      | _ => ((if eneg then - digits_value ed else digits_value ed), r2)
      end
    else (0, s)
| EmptyString => (0, s)
end.

(** The longest prefix of [s] that is a [StrDecimalLiteral], as its number
  value and the rest of the string; [None] when no prefix is one. *)
Definition StrDecimalLiteral (s : string) : option (float * string) :=
let '(neg, s1) := take_sign s in
match strip_prefix "Infinity" s1 with
| Some rest => Some (signed neg infinity, rest)
| None =>
  let '(ip, s2) := DecimalDigits s1 in
  let '(fp, s3) :=
    match s2 with
    | String "." r => let '(fp, r') := DecimalDigits r in
                      match ip, fp with [], [] => ([], s2) | _, _ => (fp, r') end
    | _ => ([], s2)
    end in
  match ip, fp with
  | [], [] => None
  | _, _ =>
      let '(ex, s4) := ExponentPart s3 in
      let ds := ip ++ fp in
      Some (decimal_to_float neg (digits_value ds) (Z.of_nat (length ds))
              (ex - Z.of_nat (length fp)), s4)
  end
end.

(** [parseFloat(string)]. *)
Definition parseFloat (inputString : string) : float :=
match StrDecimalLiteral (TrimStart inputString) with
| Some (x, _) => x
| None => nan
end.

(** *** [Number(string)]: [StringToNumber] *)

Definition radix_digit (c : ascii) : option Z :=
let n := N_of_ascii c in
if ((48 <=? n) && (n <=? 57))%N then Some (Z.of_N n - 48)
else if ((97 <=? n) && (n <=? 102))%N then Some (Z.of_N n - 87)
else if ((65 <=? n) && (n <=? 70))%N then Some (Z.of_N n - 55)
else None.

Fixpoint radix_value (radix : Z) (acc : Z) (s : string) : option Z :=
match s with
| EmptyString => Some acc
| String c r =>
    match radix_digit c with
    | Some d => if d <? radix then radix_value radix (radix * acc + d) r else None
    | None => None
    end
end.

Definition integer_to_float (n : Z) : float :=
SF2Prim (binary_normalize prec emax n 0 false).

(** [0x], [0o] and [0b] literals ([NonDecimalIntegerLiteral]). *)
Definition NonDecimalIntegerLiteral (s : string) : option float :=
match s with
| String "0" (String c (String d r)) =>
    let radix :=
      if bool_decide (c = "x"%char) || bool_decide (c = "X"%char) then 16
      else if bool_decide (c = "o"%char) || bool_decide (c = "O"%char) then 8
      else if bool_decide (c = "b"%char) || bool_decide (c = "B"%char) then 2
      else 0 in
    integer_to_float <$> radix_value radix 0 (String d r)
| _ => None
end.

Definition StringToNumber (s : string) : float :=
match Trim s with
| EmptyString => 0%float
| t =>
    match StrDecimalLiteral t with
    | Some (x, EmptyString) => x
    | _ => default nan (NonDecimalIntegerLiteral t)
    end
end.

(** *** Conversions and predicates on values *)

(** [ToNumber]: the conversion applied by the arithmetic operators and by
  the global [isNaN]. *)
Definition ToNumber (v : value) : float :=
match v with
| VNum x => x
| VStr s => StringToNumber s
| VUndefined => nan
end.

(** The global [isNaN(v)], which converts its argument first. *)
Definition isNaN (v : value) : bool := is_nan (ToNumber v).

(** [ToBoolean] of a number, as the [||] operator applies it: NaN, [+0] and
  [-0] are falsy. *)
Definition truthy (x : float) : bool := negb (is_nan x || is_zero x).

(** [String(v)]; the printing of numbers ([Number::toString], the shortest
  decimal that reads back) is left to the parameter [Number_toString]. *)
Definition ToString (Number_toString : float → string) (v : value) : string :=
match v with
| VNum x => Number_toString x
| VStr s => s
| VUndefined => "undefined"
end.

(** [Math.pow(x, 2)] and [Math.sqrt(x)], as the correctly rounded square
    and square root. *)
Definition Math_pow2 (x : float) : float := (x * x)%float.
Definition Math_sqrt (x : float) : float := PrimFloat.sqrt x.

(** An array length as a number. *)
Definition number_of_nat (n : nat) : float := integer_to_float (Z.of_nat n).

End JS.

Import JS.

(** ** Data model ([src/types.ts]) *)

(** [DataRow = Record<string, string | number>]: the properties of a row in
    the order [Object.keys] enumerates them.  A read of an absent key is
    [undefined]; an assignment replaces the value of a present key and adds
    an absent one (at the end: the order of the keys of a row that the
    program builds is never observed). *)
Definition DataRow := list (string * value).

Fixpoint row_get (row : DataRow) (key : string) : value :=
  match row with
  | [] => VUndefined
  | (k, v) :: rest => if decide (k = key) then v else row_get rest key
  end.

Fixpoint row_set (row : DataRow) (key : string) (v : value) : DataRow :=
  match row with
  | [] => [(key, v)]
  | (k, w) :: rest =>
      if decide (k = key) then (k, v) :: rest else (k, w) :: row_set rest key v
  end.

Definition Object_keys (row : DataRow) : list string := row.*1.

Record DataSet := {
  data : list DataRow;
  headers : list string;
  numericHeaders : list string;
}.

Module ColumnStats.
Record t := {
  count : nat;
  min : float;
  max : float;
  mean : float;
  median : float;
  std : float;
}.
End ColumnStats.

Record ModelResults := {
  coefficients : list float;
  intercept : value;
  rSquared : float;
  rSquaredAdjusted : float;
  rmse : float;
}.

(** The messages the application shows with [alert], named after the error
    of the specification each one reports. *)
Inductive Alert :=
| EmptyDatasetError         (* "El archivo esta vacio o no tiene datos." *)
| MissingSelection          (* "Por favor, selecciona la variable dependiente y al menos una independiente." *)
| InsufficientDataError     (* "No hay suficientes datos limpios ... para entrenar el modelo ..." *)
| SingularMatrixError       (* "... Los coeficientes resultantes no son validos (NaN). ..." *)
| ZeroVarianceError         (* "... la variable dependiente tiene varianza cero (todos los valores son iguales)." *)
| UnexpectedTrainingError   (* "Ocurrio un error inesperado al entrenar el modelo. ..." *)
| InvalidInputValues.       (* "Por favor, ingresa valores numericos validos." *)

(** ** The third-party packages *)

(** [simple-statistics]: the six functions [App.tsx] imports, each applied
    to the arrays the application passes (whose elements are row cells).
    [sampleCorrelation], which the application calls on whole columns with
    no check of their length, answers [None] when it throws; the other five
    are only called on arrays the application has checked not to be empty
    and are taken to return. *)
Module SS.
Record exports := Exports {
  mean : list value → float;
  median : list value → float;
  standardDeviation : list value → float;
  min : list value → float;
  max : list value → float;
  sampleCorrelation : list value → list value → option float;
}.
End SS.

(** [ml-regression]: the class [MultivariateLinearRegression].  [construct]
    is [new MultivariateLinearRegression(x, y)], [None] when it throws (the
    call sits in a [try] block); [weights] is the field [model.weights], an
    array of rows; [predict] is the method [model.predict], taken to return
    on the vectors of numbers the application passes. *)
Module ML.
Record exports := Exports {
  Model : Type;
  construct : list (list value) → list value → option Model;
  weights : Model → list (list float);
  predict : Model → list value → float;
}.
End ML.

(** ** Type coercion: [processParsedData] *)

Section TypeCoercion.
(** [Number::toString], used by [String(row[key])] on numeric cells. *)
Variable Number_toString : float → string.

(** [parseFloat(String(row[key]))]. *)
Definition parsed (row : DataRow) (key : string) : float :=
  parseFloat (ToString Number_toString (row_get row key)).

(** The cell [processParsedData] stores for [key]: the parsed number, or
    the text of the cell when it does not parse. *)
Definition coerced_cell (row : DataRow) (key : string) : value :=
  if is_nan (parsed row key) then VStr (ToString Number_toString (row_get row key))
  else VNum (parsed row key).

(** One turn of [for (const key of headers)]: [newRow] and the shared
    array [numericHeaders] before and after. *)
Definition process_cell (row : DataRow) (st : DataRow * list string) (key : string)
  : DataRow * list string :=
  let '(newRow, numericHeaders) := st in
  let value := parsed row key in
  if negb (is_nan value) then
    (row_set newRow key (VNum value),
     if bool_decide (key ∈ numericHeaders) then numericHeaders
     else numericHeaders ++ [key])
  else
    (row_set newRow key (VStr (ToString Number_toString (row_get row key))),
     numericHeaders).

(** The row [processParsedData] makes of [row]: its coerced cells, set in
    the order of the headers. *)
Definition coerced_row (headers : list string) (row : DataRow) : DataRow :=
  foldl (λ newRow key, row_set newRow key (coerced_cell row key)) [] headers.

(** The callback of [data.map]: the new row, and [numericHeaders] after it. *)
Definition process_row (headers : list string) (numericHeaders : list string)
    (row : DataRow) : DataRow * list string :=
  foldl (process_cell row) ([], numericHeaders) headers.

(** [data.map(row => ...)] with the array [numericHeaders] it fills. *)
Definition process_rows (headers : list string) (rows : list DataRow)
    (st : list DataRow * list string) : list DataRow * list string :=
  foldl (λ '(processed, numericHeaders) row,
           let '(newRow, numericHeaders') := process_row headers numericHeaders row in
           (processed ++ [newRow], numericHeaders'))
        st rows.

End TypeCoercion.

(** ** Application state and event handlers *)

(** [matrix[h1][h2]] of a nested dictionary, [None] when it is undefined. *)
Definition matrix_at (matrix : gmap string (gmap string float)) (h1 h2 : string)
  : option float :=
  matrix !! h1 ≫= (λ r, r !! h2).

(** The pairs [(a, b)] of a list with [a] before [b]. *)
Fixpoint ordered_pairs (l : list string) : list (string * string) :=
  match l with
  | [] => []
  | h :: t => (pair h <$> t) ++ ordered_pairs t
  end.

#[global] Instance type_tag_eq_dec : EqDecision type_tag.
Proof. solve_decision. Defined.

(** [data.map(row => row[h] as number)]: the cast does nothing at run time. *)
Definition column (data : list DataRow) (h : string) : list value :=
  (λ row, row_get row h) <$> data.

(** [predictions[i]] as an operand of a subtraction: a read past the end is
    [undefined], which converts to NaN. *)
Definition number_at (l : list float) (i : nat) : float := default nan (l !! i).

Section App.
Context (ss : SS.exports) (ml : ML.exports).
Variable Number_toString : float → string.

(** The value of the state variable [model] of [App]. *)
Record TrainedState := {
  model : ML.Model ml;
  results : ModelResults;
  independentVars : list string;
  dependentVar : string;
}.

(** The state variables of the component [App]; [trained] is the one the
    source calls [model]. *)
Record AppState := {
  isLoading : bool;
  dataSet : option DataSet;
  trained : option TrainedState;
  variableSuggestions : option (string * list string);
}.

Definition setIsLoading (b : bool) (st : AppState) : AppState :=
  {| isLoading := b; dataSet := dataSet st; trained := trained st;
     variableSuggestions := variableSuggestions st |}.

Definition handleFileParsed (newDataSet : DataSet) (st : AppState) : AppState :=
  {| isLoading := isLoading st; dataSet := Some newDataSet; trained := None;
     variableSuggestions := None |}.

Definition handleModelTrain (m : ML.Model ml) (r : ModelResults)
    (independentVars : list string) (dependentVar : string) (st : AppState) : AppState :=
  {| isLoading := isLoading st; dataSet := dataSet st;
     trained := Some {| model := m; results := r; independentVars := independentVars;
                        dependentVar := dependentVar |};
     variableSuggestions := variableSuggestions st |}.

(** [processParsedData], with [onFileParsed] bound to [handleFileParsed]:
    the next state and the alerts shown. *)
Definition processParsedData (data : list DataRow) (st : AppState)
  : AppState * list Alert :=
  match data with
  | [] => (setIsLoading false st, [EmptyDatasetError])
  | row0 :: _ =>
      let headers := Object_keys row0 in
      let '(processedData, numericHeaders) :=
        process_rows Number_toString headers data ([], []) in
      (setIsLoading false
         (handleFileParsed {| data := processedData; headers := headers;
                              numericHeaders := numericHeaders |} st), [])
  end.

(** *** Descriptive statistics: the memo [stats] *)

(** The filter [v !== null && !isNaN(v)]; no value of the model is [null]. *)
Definition stats_values (data : list DataRow) (header : string) : list value :=
  List.filter (λ v, negb (isNaN v)) (column data header).

Definition stats (ds : DataSet) : gmap string ColumnStats.t :=
  foldl (λ descStats header,
           let values := stats_values (data ds) header in
           if (0 <? length values)%nat then
             <[header := {| ColumnStats.count := length values;
                            ColumnStats.min := SS.min ss values;
                            ColumnStats.max := SS.max ss values;
                            ColumnStats.mean := SS.mean ss values;
                            ColumnStats.median := SS.median ss values;
                            ColumnStats.std := SS.standardDeviation ss values |}]> descStats
           else descStats)
        ∅ (numericHeaders ds).

(** *** Correlation: the memo [correlationMatrix] *)

(** The matrix under construction, with the list of the pairs on which
    [sampleCorrelation] has been called so far (a ghost trace: it records
    the calls and never influences the matrix). *)
Definition corr_state : Type := gmap string (gmap string float) * list (string * string).

(** One turn of the inner [forEach]: [matrix[h1][h2] = ...]; [None] when
    [sampleCorrelation] throws, which ends the whole computation. *)
Definition correlation_cell (data : list DataRow) (h1 : string)
    (st : corr_state) (h2 : string) : option corr_state :=
  let '(matrix, calls) := st in
  if decide (h1 = h2) then Some (alter (<[h2 := 1%float]>) h1 matrix, calls)
  else
    match matrix_at matrix h2 h1 with
    | Some mirrored => Some (alter (<[h2 := mirrored]>) h1 matrix, calls)
    | None =>
        let v1 := column data h1 in
        let v2 := column data h2 in
        r ← SS.sampleCorrelation ss v1 v2;
        Some (alter (<[h2 := r]>) h1 matrix, calls ++ [(h1, h2)])
    end.

(** One turn of the outer [forEach]: [matrix[h1] = {}], then the inner loop. *)
Definition correlation_row (data : list DataRow) (numericHeaders : list string)
    (st : corr_state) (h1 : string) : option corr_state :=
  foldl (λ acc h2, acc ≫= λ s, correlation_cell data h1 s h2)
        (Some (<[h1 := ∅]> st.1, st.2)) numericHeaders.

Definition correlationMatrix_traced (ds : DataSet) : option corr_state :=
  foldl (λ acc h1, acc ≫= λ s, correlation_row (data ds) (numericHeaders ds) s h1)
        (Some (∅, [])) (numericHeaders ds).

Definition correlationMatrix (ds : DataSet) : option (gmap string (gmap string float)) :=
  fst <$> correlationMatrix_traced ds.

(** *** Model training: [handleTrainModel] *)

(** [typeof row[v] === 'number' && !isNaN(row[v])]. *)
Definition is_clean (v : value) : bool :=
  bool_decide (typeof v = TNumber) && negb (isNaN v).

Definition cleanData (ds : DataSet) (dependentVar : string)
    (independentVars : list string) : list DataRow :=
  let allVars := dependentVar :: independentVars in
  List.filter (λ row, forallb (λ v, is_clean (row_get row v)) allVars) (data ds).

(** [w[0]] of a row of weights. *)
Definition first_weight (w : list float) : value :=
  match w with
  | [] => VUndefined
  | w0 :: _ => VNum w0
  end.

Definition ssTotal_of (y : list value) (yMean : float) : float :=
  foldl (λ acc val, (acc + Math_pow2 (ToNumber val - yMean))%float) 0%float y.

Definition ssResidual_of (y : list value) (predictions : list float) : float :=
  foldl (λ acc '(i, val),
           (acc + Math_pow2 (ToNumber val - number_at predictions i))%float)
        0%float (imap pair y).

(** [handleTrainModel] of the component [ModelTrainer], whose state holds
    [dependentVar] and [independentVars] and whose property [onModelTrain]
    is [handleModelTrain]: the next state of [App] and the alerts shown. *)
Definition handleTrainModel (ds : DataSet) (dependentVar : string)
    (independentVars : list string) (st : AppState) : AppState * list Alert :=
  if bool_decide (dependentVar = "") || bool_decide (length independentVars = 0%nat) then
    (st, [MissingSelection])
  else
    let clean := cleanData ds dependentVar independentVars in
    if (length clean <? length independentVars + 2)%nat then
      (st, [InsufficientDataError])
    else
      let y := column clean dependentVar in
      let x := (λ row, (λ key, row_get row key) <$> independentVars) <$> clean in
      match ML.construct ml x y with
      | None => (st, [UnexpectedTrainingError])
      | Some m =>
          if existsb (λ w, isNaN (first_weight w)) (ML.weights ml m) then
            (st, [SingularMatrixError])
          else
            let predictions := ML.predict ml m <$> x in
            let yMean := SS.mean ss y in
            let ssTotal := ssTotal_of y yMean in
            if (ssTotal =? 0)%float then (st, [ZeroVarianceError])
            else
              let ssResidual := ssResidual_of y predictions in
              let n := number_of_nat (length clean) in
              let k := number_of_nat (length independentVars) in
              let rSquared := (1 - ssResidual / ssTotal)%float in
              let rSquaredAdjusted :=
                (1 - ((1 - rSquared) * (n - 1)) / (n - k - 1))%float in
              let rmse := Math_sqrt (ssResidual / n) in
              match ML.weights ml m with
              | [] => (st, [UnexpectedTrainingError])
              | w0 :: ws =>
                  let results :=
                    {| coefficients := concat ws;
                       intercept := first_weight w0;
                       rSquared := rSquared;
                       rSquaredAdjusted := rSquaredAdjusted;
                       rmse := rmse |} in
                  (handleModelTrain m results independentVars dependentVar st, [])
              end
      end.

(** *** Prediction: the component [Predictor] *)

Record PredictorState := {
  inputs : gmap string float;
  prediction : option float;
}.

(** The initial state: every independent variable at 0, no prediction. *)
Definition Predictor_init (independentVars : list string) : PredictorState :=
  {| inputs := foldl (λ acc v, <[v := 0%float]> acc) ∅ independentVars;
     prediction := None |}.

(** [parseFloat(value) || 0]. *)
Definition input_number (value : string) : float :=
  let x := parseFloat value in if truthy x then x else 0%float.

Definition handleInputChange (varName : string) (value : string)
    (ps : PredictorState) : PredictorState :=
  {| inputs := <[varName := input_number value]> (inputs ps);
     prediction := prediction ps |}.

(** [inputs[v]]. *)
Definition input_at (inp : gmap string float) (v : string) : value :=
  match inp !! v with
  | Some x => VNum x
  | None => VUndefined
  end.

Definition handlePredict (m : ML.Model ml) (independentVars : list string)
    (ps : PredictorState) : PredictorState * list Alert :=
  let inputValues := input_at (inputs ps) <$> independentVars in
  if existsb isNaN inputValues then (ps, [InvalidInputValues])
  else
    ({| inputs := inputs ps; prediction := Some (ML.predict ml m inputValues) |}, []).

(** What a user can do in a mounted [Predictor]: edit the field of a
    variable, or press the button. *)
Inductive PredictorEvent :=
| InputChange (varName value : string)
| PredictClick.

Definition Predictor_step (m : ML.Model ml) (independentVars : list string)
    (ps : PredictorState) (ev : PredictorEvent) : PredictorState :=
  match ev with
  | InputChange varName value => handleInputChange varName value ps
  | PredictClick => (handlePredict m independentVars ps).1
  end.

(** *** The page: [App] and the [Predictor] it renders

    [App] renders [{model && <Predictor ... />}]: the [Predictor] is mounted
    when a model appears, and the initialiser of its [useState] runs then;
    while a model stays, a new model only changes the properties of the
    mounted component, whose state is kept; it is unmounted when the model
    goes. *)
Record Page := {
  app : AppState;
  predictor : option PredictorState;
}.

Definition render (st : AppState) (mounted : option PredictorState) : Page :=
  {| app := st;
     predictor :=
       match trained st, mounted with
       | None, _ => None
       | Some t, None => Some (Predictor_init (independentVars t))
       | Some t, Some ps => Some ps
       end |}.

(** The button of [ModelTrainer], pressed with the given selection. *)
Definition Page_train (ds : DataSet) (dependentVar : string)
    (independentVars : list string) (pg : Page) : Page * list Alert :=
  let '(st, alerts) := handleTrainModel ds dependentVar independentVars (app pg) in
  (render st (predictor pg), alerts).

(** The button of the mounted [Predictor]. *)
Definition Page_predict (pg : Page) : Page * list Alert :=
  match trained (app pg), predictor pg with
  | Some t, Some ps =>
      let '(ps', alerts) := handlePredict (model t) (independentVars t) ps in
      ({| app := app pg; predictor := Some ps' |}, alerts)
  | _, _ => (pg, [])
  end.
End App.

(** ** A model of the package [simple-statistics]

    The package is a dependency, outside the repository.  Its functions are
    modelled here on arrays of numbers, after the package's published
    definitions: [sum] is the Kahan-Babuska compensated sum, [mean] divides
    it by the length, [variance] is the sum of squared deviations from the
    mean divided by the length, and [standardDeviation] is its square root
    (the package's sample variants divide by the length minus one and are
    exported under the names [sampleVariance] and
    [sampleStandardDeviation]).  [sampleCorrelation] throws on samples of
    different lengths or of fewer than two points; where another function
    throws (on an empty array) the model answers NaN. *)
Module SimpleStatistics.
Local Open Scope float_scope.

Definition sum (x : list float) : float :=
  match x with
  | [] => 0
  | x0 :: rest =>
      let '(total, correction) :=
        foldl (λ '(sum, correction) xi,
                 let transition := sum + xi in
                 (transition,
                  if abs xi <=? abs sum then correction + ((sum - transition) + xi)
                  else correction + ((xi - transition) + sum)))
              (x0, 0) rest in
      total + correction
  end.

Definition mean (x : list float) : float :=
  match x with
  | [] => nan
  | _ => sum x / number_of_nat (length x)
  end.

(** [sumNthPowerDeviations(x, 2)]. *)
Definition sumSquaredDeviations (x : list float) : float :=
  let meanValue := mean x in
  foldl (λ acc xi, let tempValue := xi - meanValue in acc + tempValue * tempValue) 0 x.

Definition variance (x : list float) : float :=
  match x with
  | [] => nan
  | _ => sumSquaredDeviations x / number_of_nat (length x)
  end.

Definition standardDeviation (x : list float) : float :=
  match x with
  | [_] => 0
  | _ => Math_sqrt (variance x)
  end.

Definition sampleVariance (x : list float) : float :=
  match x with
  | [] | [_] => nan
  | _ => sumSquaredDeviations x / (number_of_nat (length x) - 1)
  end.

Definition sampleStandardDeviation (x : list float) : float :=
  Math_sqrt (sampleVariance x).

Definition min (x : list float) : float :=
  match x with
  | [] => nan
  | x0 :: rest => foldl (λ value xi, if xi <? value then xi else value) x0 rest
  end.

Definition max (x : list float) : float :=
  match x with
  | [] => nan
  | x0 :: rest => foldl (λ value xi, if value <? xi then xi else value) x0 rest
  end.

Fixpoint insert_sorted (a : float) (l : list float) : list float :=
  match l with
  | [] => [a]
  | b :: rest => if a <=? b then a :: l else b :: insert_sorted a rest
  end.

Definition sorted (x : list float) : list float := foldr insert_sorted [] x.

(** [median(x) = quantile(x, 0.5)]: the middle element of the sorted
    array, or the half sum of the two middle ones. *)
Definition median (x : list float) : float :=
  let s := sorted x in
  let n := length x in
  match n with
  | O => nan
  | _ =>
      if Nat.even n then (number_at s (n / 2 - 1) + number_at s (n / 2)) / 2
      else number_at s (n / 2)
  end.

Definition sampleCovariance (x y : list float) : float :=
  if bool_decide (length x = length y) && (2 <=? length x)%nat then
    let xmean := mean x in
    let ymean := mean y in
    foldl (λ acc '(xi, yi), acc + (xi - xmean) * (yi - ymean)) 0 (zip x y)
      / (number_of_nat (length x) - 1)
  else nan.

Definition sampleCorrelation (x y : list float) : float :=
  sampleCovariance x y / sampleStandardDeviation x / sampleStandardDeviation y.

(** The numbers of an array, when all its elements are numbers. *)
Definition numbers (vs : list value) : option (list float) :=
  mapM (λ v, match v with VNum x => Some x | _ => None end) vs.

(** The package's functions on the arrays the application passes; their
    documented domain is arrays of numbers, and on an array with another
    element the model answers NaN. *)
Definition on_numbers (f : list float → float) (vs : list value) : float :=
  from_option f nan (numbers vs).

Definition library : SS.exports :=
  {| SS.mean := on_numbers mean;
     SS.median := on_numbers median;
     SS.standardDeviation := on_numbers standardDeviation;
     SS.min := on_numbers min;
     SS.max := on_numbers max;
     SS.sampleCorrelation := λ v1 v2,
       if bool_decide (length v1 = length v2) && (2 <=? length v1)%nat then
         Some match numbers v1, numbers v2 with
              | Some x, Some y => sampleCorrelation x y
              | _, _ => nan
              end
       else None |}.
End SimpleStatistics.

(** ** The statistic the specification names

    The sample standard deviation in the specification's words: the square
    root of the sum of squared deviations from the mean, divided by [n - 1]. *)
Module Spec.
Definition sample_standard_deviation (x : list float) : float :=
  Math_sqrt (SimpleStatistics.sumSquaredDeviations x
             / (number_of_nat (length x) - 1))%float.

(** The population standard deviation: the same sum divided by [n]. *)
Definition population_standard_deviation (x : list float) : float :=
  Math_sqrt (SimpleStatistics.sumSquaredDeviations x
             / number_of_nat (length x))%float.

(** The intercept plus the dot product of the coefficients with the
    input vector, the products added in the order of the positions. *)
Definition linear_prediction (intercept : float) (coefficients x : list float)
  : float :=
  foldl (λ acc '(c, xi), (acc + c * xi)%float) intercept (zip coefficients x).
End Spec.

(** ** A stand-in for the package [ml-regression]

    The package is a dependency, outside the repository, and the theorems
    hold for every implementation of its interface.  To run the handlers on
    concrete inputs the interface is instantiated by [Stub.ml ws], in which
    every fit answers the weights [ws] and [predict] is the linear form the
    application reads them as: the first row is the intercept, the others
    are the coefficients, in the order of the independent variables. *)
Module Stub.
Definition predict (ws : list (list float)) (x : list value) : float :=
  match ws with
  | [] => nan
  | w0 :: rest =>
      Spec.linear_prediction (ToNumber (first_weight w0)) (concat rest) (ToNumber <$> x)
  end.

Definition ml (ws : list (list float)) : ML.exports :=
  {| ML.Model := list (list float);
     ML.construct := λ _ _, Some ws;
     ML.weights := λ m, m;
     ML.predict := predict |}.

(** The instance in which every fit answers the intercept 0 and the
    coefficient 1 for each column of the design matrix. *)
Definition unit_slopes : ML.exports :=
  {| ML.Model := list (list float);
     ML.construct := λ x _, Some ([0%float] :: ((λ _, [1%float]) <$> default [] (head x)));
     ML.weights := λ m, m;
     ML.predict := predict |}.
End Stub.

(** ** Sample data *)

Module Examples.
Definition row2 (x y : float) : DataRow := [("x", VNum x); ("y", VNum y)].
Definition row3 (a b y : float) : DataRow := [("a", VNum a); ("b", VNum b); ("y", VNum y)].

Definition xy (rows : list DataRow) : DataSet :=
  {| data := rows; headers := ["x"; "y"]; numericHeaders := ["x"; "y"] |}.

(** [y] varies with [x]. *)
Definition line : DataSet := xy [row2 1 1; row2 2 2; row2 3 4].
(** [y] is constant over three rows, over two rows, and there is one row. *)
Definition flat : DataSet := xy [row2 1 5; row2 2 5; row2 3 5].
Definition flat2 : DataSet := xy [row2 1 5; row2 2 5].
Definition single : DataSet := xy [row2 1 5].
(** Three clean rows and two independent variables. *)
Definition three : DataSet :=
  {| data := [row3 1 2 3; row3 2 1 4; row3 3 5 6];
     headers := ["a"; "b"; "y"]; numericHeaders := ["a"; "b"; "y"] |}.
(** A column holding 1 and 3. *)
Definition one_three : DataSet :=
  {| data := [[("a", VNum 1)]; [("a", VNum 3)]];
     headers := ["a"]; numericHeaders := ["a"] |}.
(** The rows the CSV parser yields for the lines [1,2] and [,3] under the
    header [a,b]: the second cell of column [a] is empty. *)
Definition with_empty_cell : list DataRow :=
  [[("a", VStr "1"); ("b", VStr "2")]; [("a", VStr ""); ("b", VStr "3")]].
(** The rows of a CSV file whose column [y] holds 0.1 three times. *)
Definition tenths : list DataRow :=
  [[("x", VStr "1"); ("y", VStr "0.1")];
   [("x", VStr "2"); ("y", VStr "0.1")];
   [("x", VStr "3"); ("y", VStr "0.1")]].

(** Four clean rows with two candidate predictors [x] and [z]. *)
Definition plane : DataSet :=
  {| data := [[("x", VNum 1); ("z", VNum 1); ("y", VNum 2)];
              [("x", VNum 2); ("z", VNum 1); ("y", VNum 3)];
              [("x", VNum 3); ("z", VNum 2); ("y", VNum 5)];
              [("x", VNum 4); ("z", VNum 3); ("y", VNum 8)]];
     headers := ["x"; "z"; "y"]; numericHeaders := ["x"; "z"; "y"] |}.

(** The state of [App] once [ds] is loaded and no model is trained. *)
Definition loaded (ml : ML.exports) (ds : DataSet) : AppState ml :=
  {| isLoading := false; dataSet := Some ds; trained := None;
     variableSuggestions := None |}.
End Examples.

(** ** The other components of [src/App.tsx] *)

(** *** [ModelTrainer]: the selection of the variables *)

Module ModelTrainer.
(** The state variables [dependentVar] and [independentVars]. *)
Record state := {
  dependentVar : string;
  independentVars : list string;
}.

Definition initial : state := {| dependentVar := ""; independentVars := [] |}.

(** The effect that runs when [suggestions] changes. *)
Definition applySuggestions (ds : DataSet) (suggestions : option (string * list string))
    (s : state) : state :=
  match suggestions with
  | Some (dep, indep) =>
      if bool_decide (dep ∈ headers ds) then
        if bool_decide (dep ∈ numericHeaders ds) then
          {| dependentVar := dep;
             independentVars :=
               List.filter (λ v, bool_decide (v ∈ numericHeaders ds)
                                 && negb (bool_decide (v = dep))) indep |}
        else s
      else s
  | None => s
  end.

Definition handleIndependentVarToggle (varName : string) (s : state) : state :=
  {| dependentVar := dependentVar s;
     independentVars :=
       if bool_decide (varName ∈ independentVars s) then
         List.filter (λ v, negb (bool_decide (v = varName))) (independentVars s)
       else independentVars s ++ [varName] |}.

(** [onChange] of the list of dependent variables:
    [setDependentVar(e.target.value); setIndependentVars([])]. *)
Definition handleDependentChange (value : string) (s : state) : state :=
  {| dependentVar := value; independentVars := [] |}.

Definition availableIndependentVars (ds : DataSet) (s : state) : list string :=
  List.filter (λ h, negb (bool_decide (h = dependentVar s))) (numericHeaders ds).

(** The attribute [disabled] of the button. *)
Definition trainDisabled (s : state) : bool :=
  bool_decide (dependentVar s = "") || bool_decide (length (independentVars s) = 0%nat).

(** What the component lets happen: the list offers the empty choice and
    the numeric headers, there is a box for each available variable, and a
    suggestion can arrive. *)
Inductive event :=
| ChooseDependent (value : string)
| ToggleIndependent (varName : string)
| Suggested (dep : string) (indep : list string).

Definition step (ds : DataSet) (s : state) (ev : event) : state :=
  match ev with
  | ChooseDependent value =>
      if bool_decide (value ∈ "" :: numericHeaders ds) then handleDependentChange value s
      else s
  | ToggleIndependent varName =>
      if bool_decide (varName ∈ availableIndependentVars ds s)
      then handleIndependentVarToggle varName s
      else s
  | Suggested dep indep => applySuggestions ds (Some (dep, indep)) s
  end.

(** A press on the button: nothing when it is disabled. *)
Definition trainClick (ss : SS.exports) (ml : ML.exports) (ds : DataSet)
    (s : state) (st : AppState ml) : AppState ml * list Alert :=
  if trainDisabled s then (st, [])
  else handleTrainModel ss ml ds (dependentVar s) (independentVars s) st.
End ModelTrainer.

(** *** [WorkflowSidebar]: the status of a step of the guide *)

Inductive StepStatus := completed | active | pending.

Definition getStepStatus (isDataLoaded isModelTrained : bool) (stepId : Z) : StepStatus :=
  if negb isDataLoaded then
    if stepId =? 1 then active else pending
  else if negb isModelTrained then
    if stepId <=? 2 then completed
    else if (2 <? stepId) && (stepId <=? 5) then active
    else pending
  else if isModelTrained then
    if stepId <=? 7 then completed
    else if 7 <? stepId then active
    else pending
  else pending.

(** The identifiers of [workflowSteps]. *)
Definition workflowSteps : list Z := [1; 2; 3; 4; 5; 6; 7; 8; 9; 10; 11].

(** *** [FileUpload]: the choice of the parser *)

Module FileUpload.
Record File := {
  name : string;
  body : string;
}.

(** [s.endsWith(suffix)]. *)
Definition endsWith (s suffix : string) : bool :=
  match strip_prefix (String.rev suffix) (String.rev s) with
  | Some _ => true
  | None => false
  end.

(** What [handleFile] shows: an alert of [processParsedData], or one of its
    own. *)
Inductive Notice :=
| Shown (a : Alert)
| CsvParseError (message : string)  (* "Error al parsear CSV: " + err.message *)
| ExcelReadError                    (* "Error al leer el archivo Excel." *)
| UnsupportedFormat.                (* "Formato de archivo no soportado. ..." *)

Section handleFile.
Context (ml : ML.exports).
Variable Number_toString : float → string.
(** [Papa.parse(file, {header: true, skipEmptyLines: true, ...})]: the rows
    handed to [complete], or the message handed to [error]. *)
Variable Papa_parse : File → list DataRow + string.
(** The first sheet of the workbook as rows, [None] when the [try] block
    throws; the file reader is taken to deliver the file. *)
Variable XLSX_rows : File → option (list DataRow).

(** [handleFile], once the parser has called back. *)
Definition handleFile (file : File) (st : AppState ml) : AppState ml * list Notice :=
  let st := setIsLoading ml true st in
  if endsWith (name file) ".csv" then
    match Papa_parse file with
    | inl rows =>
        let '(st', alerts) := processParsedData ml Number_toString rows st in
        (st', Shown <$> alerts)
    | inr message => (setIsLoading ml false st, [CsvParseError message])
    end
  else if endsWith (name file) ".xlsx" then
    match XLSX_rows file with
    | Some rows =>
        let '(st', alerts) := processParsedData ml Number_toString rows st in
        (st', Shown <$> alerts)
    | None => (setIsLoading ml false st, [ExcelReadError])
    end
  else (setIsLoading ml false st, [UnsupportedFormat]).
End handleFile.
End FileUpload.

(** *** The session: [App] with the components it renders

    [App] renders [ModelTrainer] while a data set is loaded and [Predictor]
    while a model is trained.  A component keeps its state as long as it
    stays rendered: the selection of [ModelTrainer] outlives the loading of
    another file. *)
Section Session.
Context (ss : SS.exports) (ml : ML.exports).
Variable Number_toString : float → string.

Record Session := {
  page : Page ml;
  trainer : option ModelTrainer.state;
}.

Definition Session_init : Session :=
  {| page := {| app := {| isLoading := false; dataSet := None; trained := None;
                          variableSuggestions := None |};
                predictor := None |};
     trainer := None |}.

(** The [ModelTrainer] after a rendering with the state [st] of [App]. *)
Definition render_trainer (st : AppState ml) (mounted : option ModelTrainer.state)
  : option ModelTrainer.state :=
  match dataSet ml st, mounted with
  | None, _ => None
  | Some _, None => Some ModelTrainer.initial
  | Some _, Some s => Some s
  end.

Definition setVariableSuggestions (sg : string * list string) (st : AppState ml)
  : AppState ml :=
  {| isLoading := isLoading ml st; dataSet := dataSet ml st; trained := trained ml st;
     variableSuggestions := Some sg |}.

Inductive SessionEvent :=
| Upload (rows : list DataRow)
| Select (ev : ModelTrainer.event)
| TrainClick
| Predict (ev : PredictorEvent).

Definition Session_step (s : Session) (ev : SessionEvent) : Session * list Alert :=
  match ev with
  | Upload rows =>
      let '(st, alerts) := processParsedData ml Number_toString rows (app ml (page s)) in
      ({| page := render ml st (predictor ml (page s));
          trainer := render_trainer st (trainer s) |}, alerts)
  | Select ev =>
      match dataSet ml (app ml (page s)), trainer s with
      | Some ds, Some t =>
          ({| page :=
                match ev with
                | ModelTrainer.Suggested dep indep =>
                    {| app := setVariableSuggestions (dep, indep) (app ml (page s));
                       predictor := predictor ml (page s) |}
                | _ => page s
                end;
              trainer := Some (ModelTrainer.step ds t ev) |}, [])
      | _, _ => (s, [])
      end
  | TrainClick =>
      match dataSet ml (app ml (page s)), trainer s with
      | Some ds, Some t =>
          let '(st, alerts) := ModelTrainer.trainClick ss ml ds t (app ml (page s)) in
          ({| page := render ml st (predictor ml (page s)); trainer := trainer s |}, alerts)
      | _, _ => (s, [])
      end
  | Predict ev =>
      match ev with
      | InputChange varName value =>
          ({| page := {| app := app ml (page s);
                         predictor := handleInputChange varName value
                                        <$> predictor ml (page s) |};
              trainer := trainer s |}, [])
      | PredictClick =>
          let '(pg, alerts) := Page_predict ml (page s) in
          ({| page := pg; trainer := trainer s |}, alerts)
      end
  end.

(** The session after a sequence of events, with the alerts shown on the way. *)
Definition Session_run (s : Session) (events : list SessionEvent) : Session * list Alert :=
  foldl (λ '(s, shown) ev, let '(s', alerts) := Session_step s ev in (s', shown ++ alerts))
        (s, []) events.
End Session.

(** * Properties *)

(** ** Rows *)

Lemma row_get_set_eq (row : DataRow) (key : string) (v : value) :
  row_get (row_set row key v) key = v.
Proof.
  induction row as [|[k w] rest IH]; simpl.
  - by rewrite decide_True.
  - destruct (decide (k = key)) as [->|Hne]; simpl.
    + by rewrite decide_True.
    + by rewrite decide_False.
Qed.

Lemma row_get_set_ne (row : DataRow) (key key' : string) (v : value) :
  key ≠ key' → row_get (row_set row key v) key' = row_get row key'.
Proof.
  intros Hne. induction row as [|[k w] rest IH]; simpl.
  - by rewrite decide_False.
  - destruct (decide (k = key)) as [->|Hk]; simpl.
    + by rewrite !decide_False.
    + destruct (decide (k = key')); [done|apply IH].
Qed.

(** A dictionary filled by a loop of assignments [r[h] = f(h)]. *)
Lemma filled_row_lookup (f : string → float) (row : gmap string float)
    (hs : list string) (k : string) :
  foldl (λ r h2, <[h2 := f h2]> r) row hs !! k =
    if bool_decide (k ∈ hs) then Some (f k) else row !! k.
Proof.
  revert row. induction hs as [|h hs IH]; intros row; cbn [foldl]; [done|].
  rewrite IH. destruct (decide (k ∈ hs)) as [Hin|Hnin].
  - rewrite !bool_decide_true; [done| |done]. by right.
  - rewrite (bool_decide_false (k ∈ hs)) by done.
    destruct (decide (h = k)) as [->|Hne].
    + rewrite lookup_insert_eq, bool_decide_true; [done|by left].
    + rewrite lookup_insert_ne by done. rewrite bool_decide_false; [done|].
      intros [->|?]%elem_of_cons; done.
Qed.

(** ** Type coercion *)

Section TypeCoercionFacts.
Variable Number_toString : float → string.

Abbreviation parsed := (parsed Number_toString).
Abbreviation coerced_cell := (coerced_cell Number_toString).
Abbreviation process_cell := (process_cell Number_toString).
Abbreviation process_row := (process_row Number_toString).
Abbreviation process_rows := (process_rows Number_toString).

Lemma process_cell_fst row newRow nh key :
  (process_cell row (newRow, nh) key).1 = row_set newRow key (coerced_cell row key).
Proof.
  unfold process_cell, coerced_cell. by destruct (is_nan (parsed row key)).
Qed.

Lemma process_cell_snd row newRow nh key :
  (process_cell row (newRow, nh) key).2 =
    if negb (is_nan (parsed row key)) && bool_decide (key ∉ nh)
    then nh ++ [key] else nh.
Proof.
  unfold process_cell. destruct (is_nan (parsed row key)); simpl; [done|].
  destruct (decide (key ∈ nh)).
  - by rewrite bool_decide_true, bool_decide_false by auto.
  - by rewrite bool_decide_false, bool_decide_true by auto.
Qed.

(** The cells of the new row: every header gets its coerced cell. *)
Lemma process_row_get row hs newRow nh key :
  row_get (foldl (process_cell row) (newRow, nh) hs).1 key =
    if bool_decide (key ∈ hs) then coerced_cell row key else row_get newRow key.
Proof.
  revert newRow nh. induction hs as [|h hs IH]; intros newRow nh; cbn [foldl].
  - done.
  - destruct (process_cell row (newRow, nh) h) as [newRow' nh'] eqn:E.
    rewrite IH.
    pose proof (process_cell_fst row newRow nh h) as Hf. rewrite E in Hf. simpl in Hf.
    subst newRow'.
    destruct (decide (key ∈ hs)) as [Hin|Hnin].
    + rewrite !bool_decide_true; [done| |done]. by right.
    + rewrite (bool_decide_false (key ∈ hs)) by done.
      destruct (decide (h = key)) as [->|Hne].
      * rewrite row_get_set_eq, bool_decide_true; [done|by left].
      * rewrite row_get_set_ne by done.
        rewrite bool_decide_false; [done|].
        intros [->|?]%elem_of_cons; done.
Qed.

(** [numericHeaders] after a row: it keeps what it had, in place, and
    gains exactly the headers of the row that parse and were not there. *)
Lemma process_row_numeric row hs newRow nh :
  let nh' := (foldl (process_cell row) (newRow, nh) hs).2 in
  nh `prefix_of` nh' ∧
  (NoDup nh → NoDup nh') ∧
  (∀ k, k ∈ nh' ↔ k ∈ nh ∨ (k ∈ hs ∧ is_nan (parsed row k) = false)).
Proof.
  revert newRow nh. induction hs as [|h hs IH]; intros newRow nh; cbn [foldl].
  - split; [done|]. split; [done|]. intros k. split; [auto|].
    intros [?|[?%elem_of_nil ?]]; done.
  - destruct (process_cell row (newRow, nh) h) as [newRow' nh1] eqn:E.
    pose proof (process_cell_snd row newRow nh h) as Hs. rewrite E in Hs. simpl in Hs.
    destruct (IH newRow' nh1) as (Hpre & Hnd & Hel).
    destruct (is_nan (parsed row h)) eqn:Hnan; simpl in Hs.
    + subst nh1. split; [done|]. split; [done|].
      intros k. rewrite Hel, elem_of_cons. split.
      * intros [?|[? ?]]; auto.
      * intros [?|[[->|?] Hk]]; auto. congruence.
    + destruct (decide (h ∈ nh)) as [Hin|Hnin].
      * rewrite bool_decide_false in Hs by auto. subst nh1.
        split; [done|]. split; [done|].
        intros k. rewrite Hel, elem_of_cons. split.
        -- intros [?|[? ?]]; auto.
        -- intros [?|[[->|?] Hk]]; auto.
      * rewrite bool_decide_true in Hs by auto. subst nh1.
        split; [by etrans; [apply prefix_app_r|apply Hpre]|].
        split.
        { intros Hn. apply Hnd. apply NoDup_app. split; [done|].
          split; [|apply NoDup_singleton].
          intros x Hx ->%list_elem_of_singleton. done. }
        intros k. rewrite Hel, elem_of_app, list_elem_of_singleton, elem_of_cons. split.
        -- intros [[?| ->]|[? ?]]; auto.
        -- intros [?|[[->|?] Hk]]; auto.
Qed.

Lemma process_row_fst row hs newRow nh :
  (foldl (process_cell row) (newRow, nh) hs).1 =
    foldl (λ newRow key, row_set newRow key (coerced_cell row key)) newRow hs.
Proof.
  revert newRow nh. induction hs as [|h hs IH]; intros newRow nh; cbn [foldl]; [done|].
  destruct (process_cell row (newRow, nh) h) as [newRow' nh'] eqn:E.
  pose proof (process_cell_fst row newRow nh h) as Hf. rewrite E in Hf. simpl in Hf.
  rewrite IH. by subst newRow'.
Qed.

Lemma coerced_row_get hs row key :
  key ∈ hs → row_get (coerced_row Number_toString hs row) key = coerced_cell row key.
Proof.
  intros Hin. unfold coerced_row.
  rewrite <- (process_row_fst row hs [] []), process_row_get.
  by rewrite bool_decide_true.
Qed.

Lemma process_row_spec hs nh row :
  let r := process_row hs nh row in
  r.1 = coerced_row Number_toString hs row ∧
  nh `prefix_of` r.2 ∧
  (NoDup nh → NoDup r.2) ∧
  (∀ k, k ∈ r.2 ↔ k ∈ nh ∨ (k ∈ hs ∧ is_nan (parsed row k) = false)).
Proof.
  split; [apply process_row_fst|apply process_row_numeric].
Qed.

(** The rows and [numericHeaders] after [data.map] has run over [rows]. *)
Lemma process_rows_spec hs rows processed nh :
  let r := process_rows hs rows (processed, nh) in
  r.1 = processed ++ (coerced_row Number_toString hs <$> rows) ∧
  nh `prefix_of` r.2 ∧
  (NoDup nh → NoDup r.2) ∧
  (∀ k, k ∈ r.2 ↔
        k ∈ nh ∨ (k ∈ hs ∧ ∃ row, row ∈ rows ∧ is_nan (parsed row k) = false)).
Proof.
  unfold process_rows.
  revert processed nh. induction rows as [|row rows IH]; intros processed nh; cbn [foldl].
  - rewrite app_nil_r. repeat split; auto.
    intros [?|[_ (row & ?%elem_of_nil & _)]]; done.
  - pose proof (process_row_spec hs nh row) as (Hf & Hp1 & Hn1 & He1).
    destruct (process_row hs nh row) as [newRow nh1] eqn:E.
    simpl in Hf, Hp1, Hn1, He1.
    destruct (IH (processed ++ [newRow]) nh1) as (Hd & Hp & Hn & He).
    split; [|split; [|split]].
    + rewrite Hd, <- app_assoc. simpl. by rewrite Hf.
    + by etrans.
    + auto.
    + intros k. rewrite He, He1. split.
      * intros [[?|[? ?]]|[? (r & ? & ?)]]; auto.
        -- right. split; [done|]. exists row. split; [by left|done].
        -- right. split; [done|]. exists r. split; [by right|done].
      * intros [?|[? (r & [->|?]%elem_of_cons & ?)]]; auto.
        right. split; [done|]. by exists r.
Qed.
End TypeCoercionFacts.

Section CoercionTheorems.
Context (ml : ML.exports).
Variable Number_toString : float → string.

(** The numeric headers of a data set made by [processParsedData] are
    distinct. *)
Lemma coerced_numericHeaders_NoDup
    (row0 : DataRow) (rest : list DataRow) (st : AppState ml) (ds : DataSet) :
  dataSet ml (processParsedData ml Number_toString (row0 :: rest) st).1 = Some ds →
  NoDup (numericHeaders ds).
Proof.
  unfold processParsedData.
  pose proof (process_rows_spec Number_toString (Object_keys row0) (row0 :: rest) [] [])
    as (_ & _ & Hn & _).
  destruct (process_rows Number_toString (Object_keys row0) (row0 :: rest) ([], []))
    as [processed nh].
  cbn. intros [= <-]. cbn. apply Hn, NoDup_nil_2.
Qed.

(** C8.  The data set [processParsedData] produces from a non-empty input
    takes its headers from the first row, and its [numericHeaders] holds
    only headers, each once, each with a row whose cell for it is a valid
    number (a number that is not NaN).  A header enters [numericHeaders]
    precisely the first time a row's value for it parses: after any initial
    segment [before] of the rows the array is a prefix of the final one and
    holds exactly the headers that parsed in some row of [before]. *)
Theorem processParsedData_numericHeaders
    (row0 : DataRow) (rest : list DataRow) (st : AppState ml) :
  ∃ ds,
    dataSet ml (processParsedData ml Number_toString (row0 :: rest) st).1 = Some ds ∧
    headers ds = Object_keys row0 ∧
    numericHeaders ds ⊆ headers ds ∧
    NoDup (numericHeaders ds) ∧
    (∀ h, h ∈ numericHeaders ds →
          ∃ row x, row ∈ data ds ∧ row_get row h = VNum x ∧ is_nan x = false) ∧
    (∀ before after, row0 :: rest = before ++ after →
       let seen := (process_rows Number_toString (headers ds) before ([], [])).2 in
       seen `prefix_of` numericHeaders ds ∧
       ∀ h, h ∈ seen ↔
            h ∈ headers ds ∧
            ∃ row, row ∈ before ∧ is_nan (parsed Number_toString row h) = false).
Proof.
  unfold processParsedData.
  set (hs := Object_keys row0). set (input := row0 :: rest).
  destruct (process_rows Number_toString hs input ([], [])) as [processed nh] eqn:E.
  pose proof (process_rows_spec Number_toString hs input [] []) as (Hd & _ & Hn & He).
  rewrite E in Hd, Hn, He. cbn [fst snd app] in Hd, Hn, He.
  eexists. split; [reflexivity|]. simpl.
  split; [done|]. split; [|split; [|split]].
  - intros h [Hh%elem_of_nil|[Hh _]]%He; done.
  - apply Hn, NoDup_nil_2.
  - intros h [Hh%elem_of_nil|[Hh (row & Hrow & Hp)]]%He; [done|].
    exists (coerced_row Number_toString hs row), (parsed Number_toString row h).
    split; [|split; [|done]].
    + rewrite Hd. by apply list_elem_of_fmap_2.
    + rewrite coerced_row_get by done. unfold coerced_cell. by rewrite Hp.
  - intros before after Hsplit. cbv zeta.
    pose proof (process_rows_spec Number_toString hs before [] []) as (_ & _ & _ & Hb).
    simpl in Hb. split.
    + fold input in Hsplit. unfold process_rows in E |- *.
      rewrite Hsplit, foldl_app in E.
      destruct (foldl _ ([], []) before) as [p1 nh1] eqn:E1. simpl.
      pose proof (process_rows_spec Number_toString hs after p1 nh1) as (_ & Hp & _).
      unfold process_rows in Hp. rewrite E in Hp. done.
    + intros h. rewrite Hb. split.
      * intros [?%elem_of_nil|?]; done.
      * auto.
Qed.
End CoercionTheorems.

(** ** Correlation matrix *)

Lemma ordered_pairs_elem (l : list string) (a b : string) :
  (a, b) ∈ ordered_pairs l → a ∈ l ∧ b ∈ l.
Proof.
  induction l as [|h t IH]; simpl.
  - intros []%elem_of_nil.
  - rewrite elem_of_app, list_elem_of_fmap. intros [(x & [= -> ->] & Hx)|Hab].
    + split; [by left|by right].
    + destruct (IH Hab). split; by right.
Qed.

(** In a list without repetition every unordered pair of distinct elements
    is listed once by [ordered_pairs], in one orientation only. *)
Lemma ordered_pairs_once (l : list string) :
  NoDup l →
  NoDup (ordered_pairs l) ∧
  ∀ a b, a ∈ l → b ∈ l → a ≠ b →
    ((a, b) ∈ ordered_pairs l ∧ (b, a) ∉ ordered_pairs l) ∨
    ((b, a) ∈ ordered_pairs l ∧ (a, b) ∉ ordered_pairs l).
Proof.
  induction l as [|h t IH]; intros Hnd.
  - split; [apply NoDup_nil_2|]. intros a b []%elem_of_nil.
  - apply NoDup_cons in Hnd as [Hh Ht]. destruct (IH Ht) as [IHn IHp]. simpl. split.
    + apply NoDup_app. split; [|split; [|done]].
      * apply NoDup_fmap_2; [|done]. by intros x y [= ->].
      * intros [x y] (z & [= -> ->] & Hz)%list_elem_of_fmap Hin.
        apply ordered_pairs_elem in Hin as [? ?]. done.
    + intros a b Ha Hb Hab.
      assert (Hfresh : ∀ x, (x, h) ∉ ordered_pairs t).
      { intros x [_ ?]%ordered_pairs_elem. done. }
      assert (Hhead : ∀ x y, (x, y) ∈ (pair h <$> t) ↔ x = h ∧ y ∈ t).
      { intros x y. rewrite list_elem_of_fmap. split.
        - intros (z & [= -> ->] & ?). done.
        - intros [-> ?]. by eexists. }
      apply elem_of_cons in Ha as [->|Ha]; apply elem_of_cons in Hb as [->|Hb].
      * done.
      * left. rewrite !elem_of_app, !Hhead. split; [by left|].
        intros [[-> ?]|?]; [done|]. by eapply Hfresh.
      * right. rewrite !elem_of_app, !Hhead. split; [by left|].
        intros [[-> ?]|?]; [done|]. by eapply Hfresh.
      * assert (a ≠ h) by (by intros ->). assert (b ≠ h) by (by intros ->).
        rewrite !elem_of_app, !Hhead.
        destruct (IHp a b Ha Hb Hab) as [[? ?]|[? ?]]; [left|right];
          (split; [by right|]); intros [[? ?]|?]; done.
Qed.

(** A loop that has thrown stays thrown. *)
Lemma foldl_bind_None {A B} (f : A → B → option A) (l : list B) :
  foldl (λ acc b, acc ≫= λ a, f a b) None l = None.
Proof. induction l as [|b l IH]; [done|]. exact IH. Qed.

Section CorrelationFacts.
Context (ss : SS.exports) (data : list DataRow).
Implicit Types (matrix : gmap string (gmap string float)) (row : gmap string float).

(** What the inner loop stores at [matrix[h1][h2]], given the matrix as it
    was when the row [h1] was started. *)
Definition cell_value matrix (h1 h2 : string) : float :=
  if decide (h1 = h2) then 1%float
  else match matrix_at matrix h2 h1 with
       | Some mirrored => mirrored
       | None => default nan (SS.sampleCorrelation ss (column data h1) (column data h2))
       end.

Definition cell_calls matrix (h1 h2 : string) : list (string * string) :=
  if decide (h1 = h2) then []
  else match matrix_at matrix h2 h1 with Some _ => [] | None => [(h1, h2)] end.

(** The turn of [h2] in the row of [h1] does not throw. *)
Definition cell_returns matrix (h1 h2 : string) : bool :=
  bool_decide (h1 = h2)
  || bool_decide (is_Some (matrix_at matrix h2 h1))
  || bool_decide (is_Some (SS.sampleCorrelation ss (column data h1) (column data h2))).

Lemma correlation_cells matrix h1 row calls hs :
  foldl (λ acc h2, acc ≫= λ s, correlation_cell ss data h1 s h2)
        (Some (<[h1 := row]> matrix, calls)) hs =
    if forallb (cell_returns matrix h1) hs then
      Some (<[h1 := foldl (λ r h2, <[h2 := cell_value matrix h1 h2]> r) row hs]> matrix,
            calls ++ (hs ≫= cell_calls matrix h1))
    else None.
Proof.
  revert row calls. induction hs as [|h2 hs IH]; intros row calls; cbn [foldl forallb].
  - by rewrite app_nil_r.
  - cbn [mbind option_bind]. unfold correlation_cell at 2.
    unfold cell_value at 2, cell_returns at 1. rewrite bind_cons. unfold cell_calls at 1.
    destruct (decide (h1 = h2)) as [<-|Hne].
    + rewrite bool_decide_true by done. cbn [orb andb].
      rewrite alter_insert_eq, IH. done.
    + rewrite (bool_decide_false (h1 = h2)) by done. cbn [orb].
      assert (Hm : matrix_at (<[h1:=row]> matrix) h2 h1 = matrix_at matrix h2 h1).
      { unfold matrix_at. by rewrite lookup_insert_ne. }
      rewrite Hm. destruct (matrix_at matrix h2 h1) as [r|].
      * rewrite bool_decide_true by eauto. cbn [orb andb].
        rewrite alter_insert_eq, IH. done.
      * rewrite (bool_decide_false (is_Some None)) by (by intros []%is_Some_None).
        cbn [orb].
        destruct (SS.sampleCorrelation ss (column data h1) (column data h2)) as [r|].
        -- rewrite bool_decide_true by eauto. cbn [andb mbind option_bind default].
           rewrite alter_insert_eq, IH, <- app_assoc. done.
        -- rewrite bool_decide_false by (by intros []%is_Some_None).
           cbn [andb mbind option_bind]. apply foldl_bind_None.
Qed.

(** The matrix and the trace after the row of [h1]. *)
Lemma correlation_row_spec nh matrix calls h1 :
  correlation_row ss data nh (matrix, calls) h1 =
    if forallb (cell_returns matrix h1) nh then
      Some (<[h1 := foldl (λ r h2, <[h2 := cell_value matrix h1 h2]> r) ∅ nh]> matrix,
            calls ++ (nh ≫= cell_calls matrix h1))
    else None.
Proof.
  unfold correlation_row. cbn [fst snd]. apply correlation_cells.
Qed.

(** The invariant of the outer loop once the headers [p] have had their
    row filled: the rows present are those of [p], each row is complete,
    has 1 on the diagonal, and mirrors the rows filled before it. *)
Definition filled (nh p : list string) matrix : Prop :=
  (∀ h, is_Some (matrix !! h) ↔ h ∈ p) ∧
  (∀ h row, matrix !! h = Some row → ∀ h2, is_Some (row !! h2) ↔ h2 ∈ nh) ∧
  (∀ h row, matrix !! h = Some row → h ∈ nh → row !! h = Some 1%float) ∧
  (∀ h h' row row', matrix !! h = Some row → matrix !! h' = Some row' →
                    row !! h' = row' !! h).

Lemma filled_empty nh : filled nh [] ∅.
Proof.
  split; [|split; [|split]].
  - intros h. rewrite lookup_empty. split; [intros []%is_Some_None|intros []%elem_of_nil].
  - intros h row Hrow. by rewrite lookup_empty in Hrow.
  - intros h row Hrow. by rewrite lookup_empty in Hrow.
  - intros h h' row row' Hrow. by rewrite lookup_empty in Hrow.
Qed.

Lemma filled_step nh p matrix calls h1 (s : corr_state) :
  p ⊆ nh → h1 ∈ nh → filled nh p matrix →
  correlation_row ss data nh (matrix, calls) h1 = Some s →
  filled nh (p ++ [h1]) s.1.
Proof.
  intros Hp Hh1 (Ha & Hb & Hc & Hd). rewrite correlation_row_spec.
  destruct (forallb _ nh); [|discriminate]. intros [= <-]. cbn [fst].
  set (R := foldl _ ∅ nh).
  assert (HR : ∀ k, R !! k = if bool_decide (k ∈ nh) then Some (cell_value matrix h1 k) else None).
  { intros k. unfold R. rewrite filled_row_lookup. by rewrite lookup_empty. }
  assert (Hmirror : ∀ h row, h ≠ h1 → matrix !! h = Some row → R !! h = row !! h1).
  { intros h row Hne Hrow. rewrite HR.
    assert (h ∈ nh) by (apply Hp, Ha; eauto).
    rewrite bool_decide_true by done.
    unfold cell_value. rewrite decide_False by done.
    unfold matrix_at. rewrite Hrow. simpl.
    destruct (proj2 (Hb h row Hrow h1) Hh1) as [r Hr]. by rewrite Hr. }
  split; [|split; [|split]].
  - intros h. rewrite elem_of_app, list_elem_of_singleton, lookup_insert_is_Some, Ha.
    split.
    + intros [Heq|[? ?]]; [by right|by left].
    + intros [?|Heq]; destruct (decide (h1 = h)); auto.
  - intros h row Hrow h2.
    destruct (decide (h1 = h)) as [<-|Hne].
    + rewrite lookup_insert_eq in Hrow. injection Hrow as <-.
      rewrite HR. case_bool_decide; [|split; [intros []%is_Some_None|done]].
      split; [done|eauto].
    + rewrite lookup_insert_ne in Hrow by done. by eapply Hb.
  - intros h row Hrow Hin.
    destruct (decide (h1 = h)) as [<-|Hne].
    + rewrite lookup_insert_eq in Hrow. injection Hrow as <-.
      rewrite HR, bool_decide_true by done.
      unfold cell_value. by rewrite decide_True.
    + rewrite lookup_insert_ne in Hrow by done. by eapply Hc.
  - intros h h' row row' Hrow Hrow'.
    destruct (decide (h1 = h)) as [<-|Hne]; destruct (decide (h1 = h')) as [<-|Hne'].
    + rewrite Hrow in Hrow'. by injection Hrow' as ->.
    + rewrite lookup_insert_eq in Hrow. injection Hrow as <-.
      rewrite lookup_insert_ne in Hrow' by done.
      by eapply Hmirror.
    + rewrite lookup_insert_eq in Hrow'. injection Hrow' as <-.
      rewrite lookup_insert_ne in Hrow by done.
      symmetry. by eapply Hmirror.
    + rewrite lookup_insert_ne in Hrow, Hrow' by done. by eapply Hd.
Qed.

(** The calls of a row: one for each header that has no row yet. *)
Lemma cell_calls_filled nh p matrix h1 h2 :
  h1 ∈ nh → filled nh p matrix →
  cell_calls matrix h1 h2 =
    if bool_decide (h2 ≠ h1 ∧ h2 ∉ p) then [(h1, h2)] else [].
Proof.
  intros Hh1 (Ha & Hb & _ & _). unfold cell_calls, matrix_at.
  destruct (decide (h1 = h2)) as [<-|Hne].
  - rewrite bool_decide_false; [done|]. intros [? _]. done.
  - destruct (matrix !! h2) as [row|] eqn:Hrow; simpl.
    + destruct (proj2 (Hb h2 row Hrow h1) Hh1) as [r ->].
      rewrite bool_decide_false; [done|]. intros [_ Hn]. apply Hn, Ha. eauto.
    + rewrite bool_decide_true; [done|]. split; [done|].
      intros [r Hr]%Ha. congruence.
Qed.

Lemma row_calls nh p matrix h1 (l : list string) :
  h1 ∈ nh → filled nh p matrix →
  l ≫= cell_calls matrix h1 =
    pair h1 <$> List.filter (λ h2, bool_decide (h2 ≠ h1 ∧ h2 ∉ p)) l.
Proof.
  intros Hh1 Hf. induction l as [|h2 t IH]; [done|].
  rewrite bind_cons, IH, (cell_calls_filled nh p) by done. simpl.
  by destruct (bool_decide _).
Qed.

Lemma filter_later (p t : list string) (h1 : string) :
  NoDup (p ++ h1 :: t) →
  List.filter (λ h2, bool_decide (h2 ≠ h1 ∧ h2 ∉ p)) (p ++ h1 :: t) = t.
Proof.
  intros (Hp & Hdisj & [Hh1 Ht]%NoDup_cons)%NoDup_app.
  rewrite List.filter_app. simpl.
  rewrite (bool_decide_false (h1 ≠ h1 ∧ _)) by (by intros [? _]).
  assert (Hnone : ∀ l : list string, l ⊆ p →
            List.filter (λ h2, bool_decide (h2 ≠ h1 ∧ h2 ∉ p)) l = []).
  { induction l as [|x l IH]; intros Hl; [done|]. simpl.
    rewrite bool_decide_false.
    - apply IH. intros y Hy. apply Hl. by right.
    - intros [_ Hx]. apply Hx, Hl. by left. }
  assert (Hall : ∀ l : list string, l ⊆ t →
            List.filter (λ h2, bool_decide (h2 ≠ h1 ∧ h2 ∉ p)) l = l).
  { induction l as [|x l IH]; intros Hl; [done|]. simpl.
    assert (x ∈ t) by (apply Hl; by left).
    rewrite bool_decide_true.
    - f_equal. apply IH. intros y Hy. apply Hl. by right.
    - split; [by intros ->|]. intros Hx. apply (Hdisj x Hx). by right. }
  by rewrite Hnone, Hall.
Qed.

(** The outer loop, from the point where the headers [p] are done and the
    headers [q] remain: what holds of its result, when it returns. *)
Lemma correlation_rows_spec nh p q matrix calls (r : corr_state) :
  nh = p ++ q → filled nh p matrix →
  foldl (λ acc h1, acc ≫= λ s, correlation_row ss data nh s h1)
        (Some (matrix, calls)) q = Some r →
  filled nh nh r.1 ∧ (NoDup nh → r.2 = calls ++ ordered_pairs q).
Proof.
  revert p matrix calls.
  induction q as [|h1 t IH]; intros p matrix calls Hnh Hf; cbn [foldl].
  - rewrite app_nil_r in Hnh. subst p. intros [= <-]. split; [done|].
    intros _. by rewrite app_nil_r.
  - assert (Hh1 : h1 ∈ nh).
    { rewrite Hnh, elem_of_app. right. by left. }
    assert (Hp : p ⊆ nh).
    { intros x Hx. rewrite Hnh, elem_of_app. by left. }
    cbn [mbind option_bind].
    destruct (correlation_row ss data nh (matrix, calls) h1) as [[matrix' calls']|] eqn:E.
    2:{ rewrite foldl_bind_None. discriminate. }
    pose proof (filled_step nh p matrix calls h1 _ Hp Hh1 Hf E) as Hstep.
    cbn [fst] in Hstep.
    rewrite correlation_row_spec in E.
    destruct (forallb _ nh); [|discriminate]. injection E as _ Hc.
    intros Hr.
    edestruct (IH (p ++ [h1])) as [Hfin Hcalls]; [|exact Hstep|exact Hr|].
    { by rewrite Hnh, <- app_assoc. }
    split; [exact Hfin|].
    intros Hnd. rewrite (Hcalls Hnd), <- Hc, <- app_assoc. f_equal.
    rewrite (row_calls nh p) by done.
    simpl. f_equal. f_equal. rewrite Hnh in Hnd |- *. by apply filter_later.
Qed.

(** The loop returns when [sampleCorrelation] returns on every pair of
    distinct columns. *)
Lemma correlation_rows_return nh q matrix calls :
  (∀ a b, a ∈ nh → b ∈ nh → a ≠ b →
          is_Some (SS.sampleCorrelation ss (column data a) (column data b))) →
  q ⊆ nh →
  is_Some (foldl (λ acc h1, acc ≫= λ s, correlation_row ss data nh s h1)
                 (Some (matrix, calls)) q).
Proof.
  intros Hsc. revert matrix calls.
  induction q as [|h1 t IH]; intros matrix calls Hq; cbn [foldl]; [eauto|].
  cbn [mbind option_bind]. rewrite correlation_row_spec.
  assert (forallb (cell_returns matrix h1) nh = true) as ->.
  { apply forallb_forall. intros h2 Hh2%list_elem_of_In. unfold cell_returns.
    destruct (decide (h1 = h2)) as [->|Hne].
    - by rewrite bool_decide_true.
    - rewrite (bool_decide_true (is_Some (SS.sampleCorrelation _ _ _))).
      + by rewrite !orb_true_r.
      + apply Hsc; [|done|done]. apply Hq. by left. }
  apply IH. intros x Hx. apply Hq. by right.
Qed.
End CorrelationFacts.

Section CorrelationTheorems.
Context (ss : SS.exports).

End CorrelationTheorems.

(** ** Model training *)

Section TrainingFacts.
Context (ss : SS.exports) (ml : ML.exports).
Implicit Types (ds : DataSet) (st : AppState ml).

(** The clean rows are the rows in which the dependent variable and every
    independent variable hold a number that is not NaN. *)
Lemma cleanData_spec ds dep indep row :
  row ∈ cleanData ds dep indep ↔
    row ∈ data ds ∧
    ∀ v, v ∈ dep :: indep → ∃ x, row_get row v = VNum x ∧ is_nan x = false.
Proof.
  unfold cleanData. rewrite list_elem_of_In, List.filter_In, <- list_elem_of_In.
  rewrite forallb_forall. apply and_iff_compat_l. split.
  - intros H v Hv. apply list_elem_of_In, H in Hv. unfold is_clean in Hv.
    apply andb_prop in Hv as [Ht Hn]. apply bool_decide_eq_true in Ht.
    destruct (row_get row v) as [x| |]; try done.
    exists x. split; [done|]. unfold isNaN in Hn. simpl in Hn. by apply negb_true_iff.
  - intros H v Hv. apply list_elem_of_In, H in Hv as (x & -> & Hx).
    unfold is_clean, isNaN. simpl. by rewrite Hx.
Qed.

(** The design matrix and the response handed to the constructor. *)
Definition design ds (dep : string) (indep : list string) : list (list value) :=
  (λ row, (λ key, row_get row key) <$> indep) <$> cleanData ds dep indep.

Definition response ds (dep : string) (indep : list string) : list value :=
  column (cleanData ds dep indep) dep.

(** The guard [!dependentVar || independentVars.length === 0]. *)
Lemma selection_guard (dep : string) (indep : list string) :
  dep ≠ "" → indep ≠ [] →
  bool_decide (dep = "") || bool_decide (length indep = 0%nat) = false.
Proof.
  intros Hd Hi. rewrite bool_decide_false by done.
  rewrite bool_decide_false; [done|]. by destruct indep.
Qed.
End TrainingFacts.

Section TrainingTheorems.
Context (ss : SS.exports) (ml : ML.exports).
Implicit Types (ds : DataSet) (st : AppState ml).

(** Every outcome of [handleTrainModel]: no alert and the new model
    installed by [handleModelTrain], or exactly one alert and the state of
    [App] as it was. *)
Lemma handleTrainModel_outcome ds dep indep st :
  let r := handleTrainModel ss ml ds dep indep st in
  (r.2 = [] ∧
   ∃ m res, ML.construct ml (design ds dep indep) (response ds dep indep) = Some m ∧
            r.1 = handleModelTrain ml m res indep dep st) ∨
  (r.1 = st ∧
   ∃ a, r.2 = [a] ∧
        a ∈ [MissingSelection; InsufficientDataError; UnexpectedTrainingError;
             SingularMatrixError; ZeroVarianceError]).
Proof.
  unfold handleTrainModel, design, response. cbv zeta.
  repeat case_match; cbn [fst snd];
    first [ left; split; [done|]; eauto
          | right; split; [done|]; eexists; split; [done|]; set_solver ].
Qed.


(** C3 (amended).  Past the selection guard and the [n >= k + 2] check,
    if the fit returns a model and some row of its weights has NaN (or
    nothing) as first entry, [handleTrainModel] shows the
    invalid-coefficients alert and leaves the state as it was. *)
Theorem nan_coefficient_is_singular ds dep indep st m :
  dep ≠ "" → indep ≠ [] →
  (length indep + 2 ≤ length (cleanData ds dep indep))%nat →
  ML.construct ml (design ds dep indep) (response ds dep indep) = Some m →
  (∃ w, w ∈ ML.weights ml m ∧ isNaN (first_weight w) = true) →
  handleTrainModel ss ml ds dep indep st = (st, [SingularMatrixError]).
Proof.
  intros Hd Hi Hn Hm (w & Hw & Hnan). unfold handleTrainModel. cbv zeta.
  rewrite (selection_guard dep indep Hd Hi).
  rewrite (proj2 (Nat.ltb_ge _ _)) by lia.
  unfold design, response in Hm. rewrite Hm.
  assert (existsb (λ w, isNaN (first_weight w)) (ML.weights ml m) = true) as ->; [|done].
  apply existsb_exists. exists w. split; [by apply list_elem_of_In|done].
Qed.


(** C9.  A fit that fails, whatever the alert, leaves the state of [App]
    as it was, its trained model and results included; a fit that
    succeeds installs, through [handleModelTrain], a record made of the
    model just constructed, its results and the selected variables, and
    changes nothing else.  The record is never updated in place: a
    prediction leaves the state of [App] as it was, and loading a file
    discards the record. *)
Theorem failed_fit_keeps_model ds dep indep st :
  let r := handleTrainModel ss ml ds dep indep st in
  (∀ a, a ∈ r.2 → r.1 = st ∧ trained ml r.1 = trained ml st) ∧
  (r.2 = [] →
     ∃ m res,
       ML.construct ml (design ds dep indep) (response ds dep indep) = Some m ∧
       trained ml r.1 =
         Some {| model := m; results := res; independentVars := indep;
                 dependentVar := dep |} ∧
       dataSet ml r.1 = dataSet ml st ∧
       isLoading ml r.1 = isLoading ml st ∧
       variableSuggestions ml r.1 = variableSuggestions ml st) ∧
  (∀ pg : Page ml, app ml (Page_predict ml pg).1 = app ml pg) ∧
  (∀ newDataSet, trained ml (handleFileParsed ml newDataSet st) = None).
Proof.
  cbv zeta. split; [|split; [|split]].
  - intros a Hin.
    destruct (handleTrainModel_outcome ds dep indep st)
      as [[Hok _]|[Hst _]].
    + rewrite Hok in Hin. by apply elem_of_nil in Hin.
    + by rewrite Hst.
  - intros Hnil.
    destruct (handleTrainModel_outcome ds dep indep st)
      as [[_ (m & res & Hm & Hr)]|[_ (a & Ha & _)]].
    + exists m, res. rewrite Hr. done.
    + rewrite Ha in Hnil. discriminate.
  - intros pg. unfold Page_predict.
    destruct (trained ml (app ml pg)) as [t|]; [|done].
    destruct (predictor ml pg) as [ps|]; [|done].
    by destruct (handlePredict ml (model ml t) (independentVars ml t) ps).
  - done.
Qed.
End TrainingTheorems.

(** ** Prediction *)

Section PredictionFacts.
Context (ml : ML.exports).
Implicit Types (ps : PredictorState) (indep : list string).

(** Every independent variable has a stored input that is not NaN. *)
Definition inputs_ready indep ps : Prop :=
  ∀ v, v ∈ indep → ∃ x, inputs ps !! v = Some x ∧ is_nan x = false.

(** [parseFloat(value) || 0] is never NaN, and is 0 when the text does not
    parse. *)
Lemma input_number_not_nan (value : string) : is_nan (input_number value) = false.
Proof.
  unfold input_number, truthy.
  destruct (is_nan (parseFloat value)) eqn:Hn; simpl; [done|].
  destruct (is_zero (parseFloat value)); simpl; done.
Qed.

Lemma input_number_unparsed (value : string) :
  is_nan (parseFloat value) = true → input_number value = 0%float.
Proof. unfold input_number, truthy. by intros ->. Qed.

Lemma Predictor_init_lookup indep v :
  inputs (Predictor_init indep) !! v = if bool_decide (v ∈ indep) then Some 0%float else None.
Proof.
  unfold Predictor_init. cbn [inputs].
  pose proof (filled_row_lookup (λ _, 0%float) ∅ indep v) as H.
  by rewrite lookup_empty in H.
Qed.

Lemma Predictor_init_ready indep : inputs_ready indep (Predictor_init indep).
Proof.
  intros v Hv. exists 0%float. rewrite Predictor_init_lookup, bool_decide_true by done.
  done.
Qed.

Lemma handleInputChange_ready indep ps varName value :
  inputs_ready indep ps → inputs_ready indep (handleInputChange varName value ps).
Proof.
  intros Hr v Hv. unfold handleInputChange. cbn [inputs].
  destruct (decide (varName = v)) as [->|Hne].
  - rewrite lookup_insert_eq. eexists. split; [done|apply input_number_not_nan].
  - rewrite lookup_insert_ne by done. by apply Hr.
Qed.

(** The vector [handlePredict] builds: one value per independent variable,
    in their order. *)
Lemma inputValues_ready indep ps :
  inputs_ready indep ps →
  ∃ xs, input_at (inputs ps) <$> indep = VNum <$> xs ∧
        Forall2 (λ v x, inputs ps !! v = Some x) indep xs ∧
        Forall (λ x, is_nan x = false) xs.
Proof.
  induction indep as [|v indep IH]; intros Hr.
  - exists []. repeat split; constructor.
  - destruct IH as (xs & Hxs & Hl & Hn).
    { intros w Hw. apply Hr. by right. }
    destruct (Hr v) as (x & Hx & Hxn); [by left|].
    exists (x :: xs). split; [|split].
    + rewrite !fmap_cons, Hxs. unfold input_at at 1. by rewrite Hx.
    + by constructor.
    + by constructor.
Qed.

Lemma existsb_isNaN_numbers (xs : list float) :
  Forall (λ x, is_nan x = false) xs → existsb isNaN (VNum <$> xs) = false.
Proof.
  induction 1 as [|x xs Hx _ IH]; [done|].
  rewrite fmap_cons. simpl. unfold isNaN at 1. simpl. by rewrite Hx.
Qed.

Lemma handlePredict_ready m indep ps :
  inputs_ready indep ps →
  ∃ xs, Forall2 (λ v x, inputs ps !! v = Some x) indep xs ∧
        Forall (λ x, is_nan x = false) xs ∧
        handlePredict ml m indep ps =
          ({| inputs := inputs ps;
              prediction := Some (ML.predict ml m (VNum <$> xs)) |}, []).
Proof.
  intros (xs & Hxs & Hl & Hn)%inputValues_ready.
  exists xs. split; [done|]. split; [done|].
  unfold handlePredict. cbv zeta. rewrite Hxs.
  by rewrite existsb_isNaN_numbers.
Qed.

Lemma handlePredict_rejects m indep ps v :
  v ∈ indep →
  inputs ps !! v = None ∨ (∃ x, inputs ps !! v = Some x ∧ is_nan x = true) →
  handlePredict ml m indep ps = (ps, [InvalidInputValues]).
Proof.
  intros Hv Hbad. unfold handlePredict. cbv zeta.
  assert (existsb isNaN (input_at (inputs ps) <$> indep) = true) as ->; [|done].
  apply existsb_exists. exists (input_at (inputs ps) v). split.
  - apply list_elem_of_In. by apply list_elem_of_fmap_2.
  - unfold input_at. destruct Hbad as [->|(x & -> & Hx)]; [done|].
    unfold isNaN. simpl. done.
Qed.
End PredictionFacts.

Section PredictionTheorems.
Context (ml : ML.exports).
Implicit Types (ps : PredictorState) (indep : list string).

(** C1 (amended).  [handlePredict] reads the stored input of each
    independent variable by name, in the order fixed at fit time.  When
    every one of them has an input that is not NaN the prediction becomes
    [model.predict] of that vector of [k] numbers, which is the intercept
    plus the dot product with the coefficients whenever the package's
    [predict] is that linear form on vectors of length [k]; when one has no
    input, or NaN, the invalid-values alert is shown and the state stays as
    it was.  Inputs stored under other names are ignored: having more
    entries than [k] is not an error. *)
Theorem handlePredict_spec (m : ML.Model ml) indep ps
    (intercept : float) (coefficients : list float) :
  (∀ xs : list float, length xs = length indep →
     ML.predict ml m (VNum <$> xs) = Spec.linear_prediction intercept coefficients xs) →
  (inputs_ready indep ps →
     ∃ xs, Forall2 (λ v x, inputs ps !! v = Some x) indep xs ∧
           handlePredict ml m indep ps =
             ({| inputs := inputs ps;
                 prediction := Some (Spec.linear_prediction intercept coefficients xs) |},
              [])) ∧
  (∀ v, v ∈ indep →
        inputs ps !! v = None ∨ (∃ x, inputs ps !! v = Some x ∧ is_nan x = true) →
        handlePredict ml m indep ps = (ps, [InvalidInputValues])) ∧
  (∀ ps', (∀ v, v ∈ indep → inputs ps' !! v = inputs ps !! v) →
          (handlePredict ml m indep ps').2 = (handlePredict ml m indep ps).2 ∧
          ((handlePredict ml m indep ps).2 = [] →
           prediction (handlePredict ml m indep ps').1 =
             prediction (handlePredict ml m indep ps).1)).
Proof.
  intros Hlin. split; [|split].
  - intros Hr. destruct (handlePredict_ready ml m indep ps Hr) as (xs & Hl & _ & ->).
    exists xs. split; [done|]. rewrite Hlin; [done|].
    symmetry. by eapply Forall2_length.
  - intros v. apply handlePredict_rejects.
  - intros ps' Hsame.
    assert (Heq : input_at (inputs ps') <$> indep = input_at (inputs ps) <$> indep).
    { apply list_fmap_ext. intros i v Hv. unfold input_at.
      rewrite Hsame; [done|]. by eapply list_elem_of_lookup_2. }
    unfold handlePredict. cbv zeta. rewrite Heq.
    destruct (existsb isNaN _); cbn [fst snd prediction]; [|done].
    split; [done|discriminate].
Qed.

(** C10 (amended).  The value stored for a prediction input is never NaN:
    a text that does not parse, the empty text included, is stored as 0.
    Hence, in a [Predictor] whose inputs were initialised from the
    independent variables of its model, after any sequence of edits and
    predictions the invalid-values branch of [handlePredict] is not taken
    and [model.predict] receives exactly one number that is not NaN for
    each independent variable, in their order (the number can be
    infinite). *)
Theorem Predictor_inputs_never_NaN (m : ML.Model ml) indep
    (events : list PredictorEvent) :
  let ps := foldl (Predictor_step ml m indep) (Predictor_init indep) events in
  (∀ value, is_nan (input_number value) = false) ∧
  (∀ value, is_nan (parseFloat value) = true → input_number value = 0%float) ∧
  input_number "" = 0%float ∧
  ∃ xs, length xs = length indep ∧
        Forall2 (λ v x, inputs ps !! v = Some x) indep xs ∧
        Forall (λ x, is_nan x = false) xs ∧
        handlePredict ml m indep ps =
          ({| inputs := inputs ps;
              prediction := Some (ML.predict ml m (VNum <$> xs)) |}, []).
Proof.
  cbv zeta. split; [apply input_number_not_nan|].
  split; [apply input_number_unparsed|]. split; [done|].
  assert (Hready : inputs_ready indep
            (foldl (Predictor_step ml m indep) (Predictor_init indep) events)).
  { generalize (Predictor_init_ready indep).
    generalize (Predictor_init indep) as ps.
    induction events as [|ev events IH]; intros ps Hps; cbn [foldl]; [done|].
    apply IH. destruct ev as [varName value|]; cbn [Predictor_step].
    - by apply handleInputChange_ready.
    - destruct (handlePredict_ready ml m indep ps Hps) as (xs & _ & _ & ->).
      exact Hps. }
  destruct (handlePredict_ready ml m indep _ Hready) as (xs & Hl & Hn & Hp).
  exists xs. split; [|done]. symmetry. by eapply Forall2_length.
Qed.
End PredictionTheorems.

(** ** Descriptive statistics *)

Section StatisticsFacts.
Context (ss : SS.exports).

(** The entry [stats] computes for a column from its filtered values. *)
Definition column_entry (values : list value) : ColumnStats.t :=
  {| ColumnStats.count := length values;
     ColumnStats.min := SS.min ss values;
     ColumnStats.max := SS.max ss values;
     ColumnStats.mean := SS.mean ss values;
     ColumnStats.median := SS.median ss values;
     ColumnStats.std := SS.standardDeviation ss values |}.

Lemma stats_fold_lookup (rows : list DataRow) (hs : list string)
    (descStats : gmap string ColumnStats.t) (h : string) :
  foldl (λ descStats header,
           let values := stats_values rows header in
           if (0 <? length values)%nat then
             <[header := column_entry values]> descStats
           else descStats) descStats hs !! h =
    if bool_decide (h ∈ hs) && (0 <? length (stats_values rows h))%nat
    then Some (column_entry (stats_values rows h))
    else descStats !! h.
Proof.
  revert descStats. induction hs as [|h' hs IH]; intros descStats; cbn [foldl]; [done|].
  rewrite IH. cbv zeta.
  destruct (decide (h ∈ hs)) as [Hin|Hnin].
  - rewrite !(bool_decide_true (h ∈ _)); [|by right|done]. simpl.
    destruct (0 <? length (stats_values rows h))%nat eqn:Hpos; [done|].
    destruct (decide (h' = h)) as [->|Hne].
    + by rewrite Hpos.
    + destruct (0 <? length (stats_values rows h'))%nat; [|done].
      by rewrite lookup_insert_ne.
  - rewrite (bool_decide_false (h ∈ hs)) by done. simpl.
    destruct (decide (h' = h)) as [->|Hne].
    + rewrite bool_decide_true by (by left). simpl.
      destruct (0 <? length (stats_values rows h))%nat; [|done].
      by rewrite lookup_insert_eq.
    + rewrite bool_decide_false.
      2:{ intros [->|?]%elem_of_cons; done. }
      simpl. destruct (0 <? length (stats_values rows h'))%nat; [|done].
      by rewrite lookup_insert_ne.
Qed.

(** The statistics of a column: present exactly for the numeric headers
    whose filtered list is not empty, and computed from that list. *)
Lemma stats_lookup (ds : DataSet) (h : string) :
  stats ss ds !! h =
    if bool_decide (h ∈ numericHeaders ds)
       && (0 <? length (stats_values (data ds) h))%nat
    then Some (column_entry (stats_values (data ds) h))
    else None.
Proof.
  unfold stats. rewrite (stats_fold_lookup (data ds) (numericHeaders ds) ∅ h).
  by rewrite lookup_empty.
Qed.
End StatisticsFacts.

Lemma numbers_VNum (xs : list float) :
  SimpleStatistics.numbers (VNum <$> xs) = Some xs.
Proof.
  unfold SimpleStatistics.numbers. induction xs as [|x xs IH]; [done|].
  rewrite fmap_cons. cbn [mapM]. rewrite IH. done.
Qed.

(** C2 (amended).  For a numeric column whose filtered list is a list of
    [n >= 2] numbers, the [std] reported is [standardDeviation] of
    [simple-statistics] applied to that list, which is the population
    standard deviation: the square root of the sum of squared deviations
    from the mean divided by [n]. *)
Theorem stats_std_is_population (ds : DataSet) (h : string) (xs : list float) :
  h ∈ numericHeaders ds →
  stats_values (data ds) h = VNum <$> xs →
  (2 ≤ length xs)%nat →
  (∀ ss, ColumnStats.std <$> (stats ss ds !! h)
           = Some (SS.standardDeviation ss (VNum <$> xs))) ∧
  ColumnStats.std <$> (stats SimpleStatistics.library ds !! h)
    = Some (Spec.population_standard_deviation xs).
Proof.
  intros Hh Hxs Hn.
  assert (Hstd : ∀ ss, ColumnStats.std <$> (stats ss ds !! h)
                       = Some (SS.standardDeviation ss (VNum <$> xs))).
  { intros ss. rewrite stats_lookup, bool_decide_true by done. rewrite Hxs.
    rewrite length_fmap. rewrite (proj2 (Nat.ltb_lt 0 (length xs))) by lia. done. }
  split; [done|]. rewrite Hstd. f_equal.
  cbn [SimpleStatistics.library SS.standardDeviation].
  unfold SimpleStatistics.on_numbers. rewrite numbers_VNum. cbn [from_option].
  destruct xs as [|x1 [|x2 xs]]; simpl in Hn; [lia|lia|]. done.
Qed.

(** ** The statements at concrete inputs *)

Import Examples.



(** C3: a fit whose slope is NaN is refused. *)
Lemma nan_coefficient_is_singular_witness :
  handleTrainModel SimpleStatistics.library (Stub.ml [[1%float]; [nan]])
      line "y" ["x"] (loaded _ line)
    = (loaded _ line, [SingularMatrixError]).
Proof.
  apply (nan_coefficient_is_singular SimpleStatistics.library
           (Stub.ml [[1%float]; [nan]]) line "y" ["x"] (loaded _ line)
           [[1%float]; [nan]]);
    [discriminate|discriminate|vm_compute; lia|reflexivity|].
  exists [nan]. split; [|reflexivity]. right. left.
Defined.

(** C3 as stated fails for an infinite coefficient: the fit is accepted, a
    model is installed and its results are computed from it. *)
Lemma infinite_coefficient_accepted :
  let r := handleTrainModel SimpleStatistics.library (Stub.ml [[infinity]; [1%float]])
             line "y" ["x"] (loaded _ line) in
  r.2 = [] ∧
  (λ t, intercept (results _ t)) <$> trained _ r.1 = Some (VNum infinity) ∧
  (λ t, rmse (results _ t)) <$> trained _ r.1 = Some infinity.
Proof. vm_compute. repeat split. Qed.



Lemma ToNumber_VNum (xs : list float) : ToNumber <$> (VNum <$> xs) = xs.
Proof. induction xs as [|x xs IH]; [done|]. rewrite !fmap_cons, IH. done. Qed.

(** C1: with intercept 3 and coefficients 2 and -1, the inputs 1 and 2
    predict [3 + 2*1 - 1*2]. *)
Lemma handlePredict_spec_witness :
  let ws := [[3%float]; [2%float]; [(-1)%float]] in
  let indep := ["x1"; "x2"] in
  let ps := handleInputChange "x2" "2" (handleInputChange "x1" "1" (Predictor_init indep)) in
  inputs_ready indep ps ∧
  ∃ xs, Forall2 (λ v x, inputs ps !! v = Some x) indep xs ∧
        handlePredict (Stub.ml ws) ws indep ps =
          ({| inputs := inputs ps;
              prediction := Some (Spec.linear_prediction 3 [2%float; (-1)%float] xs) |}, []).
Proof.
  cbv zeta.
  assert (Hready : inputs_ready ["x1"; "x2"]
            (handleInputChange "x2" "2"
               (handleInputChange "x1" "1" (Predictor_init ["x1"; "x2"])))).
  { apply handleInputChange_ready, handleInputChange_ready, Predictor_init_ready. }
  split; [exact Hready|].
  apply (handlePredict_spec (Stub.ml [[3%float]; [2%float]; [(-1)%float]])
           [[3%float]; [2%float]; [(-1)%float]] ["x1"; "x2"] _ 3%float
           [2%float; (-1)%float]); [|exact Hready].
  intros xs _. cbn [ML.predict Stub.ml Stub.predict]. by rewrite ToNumber_VNum.
Defined.

(** The same prediction, computed. *)
Example handlePredict_example :
  prediction
    (handlePredict (Stub.ml [[3%float]; [2%float]; [(-1)%float]])
       [[3%float]; [2%float]; [(-1)%float]] ["x1"; "x2"]
       (handleInputChange "x2" "2"
          (handleInputChange "x1" "1" (Predictor_init ["x1"; "x2"])))).1
    = Some 3%float.
Proof. vm_compute. reflexivity. Qed.

(** C1 as stated fails for an input with more entries than the model has
    variables: with three stored inputs and a model of two variables
    [handlePredict] shows no alert and predicts from the two it knows.
    With one stored input it does refuse, through the alert for invalid
    values. *)
Lemma handlePredict_extra_inputs :
  let ws := [[3%float]; [2%float]; [(-1)%float]] in
  let indep := ["x1"; "x2"] in
  let three_inputs :=
    {| inputs := <["x1" := 1%float]> (<["x2" := 2%float]> (<["x3" := 7%float]> ∅));
       prediction := None |} in
  let one_input := {| inputs := <["x1" := 1%float]> ∅; prediction := None |} in
  size (inputs three_inputs) = 3%nat ∧
  length indep = 2%nat ∧
  (handlePredict (Stub.ml ws) ws indep three_inputs).2 = [] ∧
  prediction (handlePredict (Stub.ml ws) ws indep three_inputs).1 = Some 3%float ∧
  handlePredict (Stub.ml ws) ws indep one_input = (one_input, [InvalidInputValues]).
Proof. vm_compute. repeat split. Qed.

(** C2: a column holding 1 and 3. *)
Lemma stats_std_is_population_witness :
  (∀ ss, ColumnStats.std <$> (stats ss one_three !! "a")
           = Some (SS.standardDeviation ss (VNum <$> [1%float; 3%float]))) ∧
  ColumnStats.std <$> (stats SimpleStatistics.library one_three !! "a")
    = Some (Spec.population_standard_deviation [1%float; 3%float]).
Proof.
  apply (stats_std_is_population one_three "a" [1%float; 3%float]);
    [by left|reflexivity|cbn; lia].
Defined.

(** C2 as stated fails on the column holding 1 and 3: the deviations from
    the mean 2 are -1 and 1, their squares add up to 2, the [std] reported
    is [sqrt (2 / 2) = 1], and the sample standard deviation is
    [sqrt (2 / 1)]. *)
Lemma stats_std_not_sample :
  stats_values (data one_three) "a" = [VNum 1; VNum 3] ∧
  ColumnStats.std <$> (stats SimpleStatistics.library one_three !! "a") = Some 1%float ∧
  Spec.sample_standard_deviation [1%float; 3%float] = Math_sqrt 2 ∧
  (Math_sqrt 2 =? 1)%float = false.
Proof. vm_compute. repeat split. Qed.

(** C7: an empty cell passes the filter of [stats].  In the data set made
    of the lines [1,2] and [,3] under the header [a,b], column [a] is
    numeric, its empty cell stays the empty string, [isNaN("")] is false
    because [""] converts to 0, and the statistics of the column are
    computed over two values, the empty string among them; the filter of
    [handleTrainModel], which tests [typeof], keeps the first row only. *)
Theorem stats_counts_empty_cell (ss : SS.exports) (ml : ML.exports)
    (Number_toString : float → string) (st : AppState ml) :
  ∃ ds,
    dataSet ml (processParsedData ml Number_toString with_empty_cell st).1 = Some ds ∧
    data ds = [[("a", VNum 1); ("b", VNum 2)]; [("a", VStr ""); ("b", VNum 3)]] ∧
    numericHeaders ds = ["a"; "b"] ∧
    isNaN (VStr "") = false ∧
    stats_values (data ds) "a" = [VNum 1; VStr ""] ∧
    ColumnStats.count <$> (stats ss ds !! "a") = Some 2%nat ∧
    cleanData ds "b" ["a"] = [[("a", VNum 1); ("b", VNum 2)]].
Proof. eexists. split; [reflexivity|]. vm_compute. repeat split. Qed.

(** C10 as stated fails in two ways.  A text that reads as an infinite
    number is stored as it is, and [handlePredict] passes it on.  And the
    rejection branch is reached after a second training: the [Predictor]
    mounted for the model of [x] keeps its inputs when a model of [x] and
    [z] replaces it, [inputs["z"]] is undefined, and the button shows the
    alert for invalid values. *)
Lemma Predictor_inputs_counterexample :
  let ws := [[0%float]; [1%float]] in
  let ps := handleInputChange "x" "1e999" (Predictor_init ["x"]) in
  let ml := Stub.unit_slopes in
  let page0 := {| app := loaded ml plane; predictor := None |} in
  let page1 := (Page_train SimpleStatistics.library ml plane "y" ["x"] page0).1 in
  let page2 := (Page_train SimpleStatistics.library ml plane "y" ["x"; "z"] page1).1 in
  (input_number "Infinity" = infinity ∧
   input_number "1e999" = infinity ∧
   inputs ps !! "x" = Some infinity ∧
   handlePredict (Stub.ml ws) ws ["x"] ps =
     ({| inputs := inputs ps; prediction := Some infinity |}, [])) ∧
  (inputs <$> predictor ml page1 = Some (<["x" := 0%float]> ∅) ∧
   independentVars ml <$> trained ml (app ml page2) = Some ["x"; "z"] ∧
   inputs <$> predictor ml page2 = Some (<["x" := 0%float]> ∅) ∧
   (Page_predict ml page2).2 = [InvalidInputValues]).
Proof. vm_compute. repeat split. Qed.

(** A constant column can escape the zero-variance test: the mean of three
    copies of 0.1, as [simple-statistics] computes it, is not 0.1, the
    total sum of squares is then positive, and the fit is accepted. *)
Lemma constant_tenths_accepted (Number_toString : float → string)
    (st : AppState (Stub.ml [[parseFloat "0.1"]; [0%float]])) :
  ∃ ds,
    dataSet _ (processParsedData _ Number_toString tenths st).1 = Some ds ∧
    response ds "y" ["x"]
      = [VNum (parseFloat "0.1"); VNum (parseFloat "0.1"); VNum (parseFloat "0.1")] ∧
    (ssTotal_of (response ds "y" ["x"])
       (SS.mean SimpleStatistics.library (response ds "y" ["x"])) =? 0)%float = false ∧
    (handleTrainModel SimpleStatistics.library _ ds "y" ["x"] st).2 = [].
Proof. eexists. split; [reflexivity|]. vm_compute. repeat split. Qed.

(** ** The pipeline on a small file *)

(** A CSV file with a text column and two numeric ones, the second of which
    starts with a cell that does not parse. *)
Definition sales_csv : list DataRow :=
  [[("region", VStr "north"); ("units", VStr "10"); ("price", VStr "n/a")];
   [("region", VStr "south"); ("units", VStr "12"); ("price", VStr "2.5")];
   [("region", VStr "east"); ("units", VStr "15"); ("price", VStr "3")]].

Example sales_coerced (ml : ML.exports) (Number_toString : float → string)
    (st : AppState ml) :
  dataSet ml (processParsedData ml Number_toString sales_csv st).1 =
    Some {| data :=
              [[("region", VStr "north"); ("units", VNum 10); ("price", VStr "n/a")];
               [("region", VStr "south"); ("units", VNum 12); ("price", VNum 2.5)];
               [("region", VStr "east"); ("units", VNum 15); ("price", VNum 3)]];
            headers := ["region"; "units"; "price"];
            numericHeaders := ["units"; "price"] |}.
Proof. reflexivity. Qed.

Example line_correlation :
  ∃ matrix r,
    correlationMatrix_traced SimpleStatistics.library line = Some (matrix, [("x", "y")]) ∧
    matrix_at matrix "x" "x" = Some 1%float ∧
    matrix_at matrix "y" "y" = Some 1%float ∧
    matrix_at matrix "x" "y" = Some r ∧
    matrix_at matrix "y" "x" = Some r ∧
    ((0.5 <? r) && (r <? 1))%float = true.
Proof. do 2 eexists. vm_compute. repeat split. Qed.

(** With a single row [sampleCorrelation] throws and no matrix is made. *)
Example single_row_correlation :
  correlationMatrix SimpleStatistics.library single = None.
Proof. reflexivity. Qed.

(** * Further properties *)

(** ** Type coercion: the rows of the data set *)

Section CoercionMore.
Context (ml : ML.exports).
Variable Number_toString : float → string.

(** What [processParsedData] makes of a non-empty input. *)
Lemma processParsedData_inv (row0 : DataRow) (rest : list DataRow) (st : AppState ml)
    (ds : DataSet) :
  dataSet ml (processParsedData ml Number_toString (row0 :: rest) st).1 = Some ds →
  headers ds = Object_keys row0 ∧
  data ds = coerced_row Number_toString (headers ds) <$> (row0 :: rest) ∧
  NoDup (numericHeaders ds) ∧
  ∀ k, k ∈ numericHeaders ds ↔
       k ∈ headers ds ∧
       ∃ row, row ∈ row0 :: rest ∧ is_nan (parsed Number_toString row k) = false.
Proof.
  unfold processParsedData.
  pose proof (process_rows_spec Number_toString (Object_keys row0) (row0 :: rest) [] [])
    as (Hd & _ & Hn & He).
  destruct (process_rows Number_toString (Object_keys row0) (row0 :: rest) ([], []))
    as [processed nh].
  cbn [fst snd app] in Hd, Hn, He. cbn. intros [= <-]. cbn.
  split; [done|]. split; [done|]. split; [apply Hn, NoDup_nil_2|].
  intros k. rewrite He. split.
  - intros [?%elem_of_nil|?]; done.
  - auto.
Qed.

Lemma coerced_row_get_other hs row key :
  key ∉ hs → row_get (coerced_row Number_toString hs row) key = VUndefined.
Proof.
  intros Hnin. unfold coerced_row.
  rewrite <- (process_row_fst Number_toString row hs [] []), process_row_get.
  by rewrite bool_decide_false.
Qed.

(** X1.  The data set made from a non-empty input has one row for each
    input row, in the same order; the row made of an input row holds, for
    every header (the keys of the first row), the coerced cell of that
    input row, and nothing under any other key: a column that the first
    row does not have is dropped from every row. *)
Theorem processParsedData_rows (row0 : DataRow) (rest : list DataRow) (st : AppState ml) :
  ∃ ds,
    dataSet ml (processParsedData ml Number_toString (row0 :: rest) st).1 = Some ds ∧
    (processParsedData ml Number_toString (row0 :: rest) st).2 = [] ∧
    length (data ds) = length (row0 :: rest) ∧
    ∀ i row, (row0 :: rest) !! i = Some row →
      ∃ row', data ds !! i = Some row' ∧
              (∀ h, h ∈ headers ds →
                    row_get row' h = coerced_cell Number_toString row h) ∧
              (∀ k, k ∉ headers ds → row_get row' k = VUndefined).
Proof.
  destruct (processParsedData ml Number_toString (row0 :: rest) st) as [st' alerts] eqn:E.
  assert (Hshape : ∃ ds, dataSet ml st' = Some ds ∧ alerts = []).
  { unfold processParsedData in E.
    destruct (process_rows _ _ _ _) as [processed nh]. injection E as <- <-. eauto. }
  destruct Hshape as (ds & Hds & ->). exists ds. split; [done|]. split; [done|].
  pose proof (processParsedData_inv row0 rest st ds) as Hinv.
  rewrite E in Hinv. destruct (Hinv Hds) as (_ & Hd & _ & _).
  split; [by rewrite Hd, length_fmap|].
  intros i row Hi. exists (coerced_row Number_toString (headers ds) row).
  split; [by rewrite Hd, list_lookup_fmap, Hi|].
  split; [intros h Hh; by apply coerced_row_get|apply coerced_row_get_other].
Qed.

(** X2.  Every cell of the data set is typed by [parseFloat]: a text that
    parses becomes the number read (never NaN), a text that does not parse
    is kept as it is, and a cell that the input row lacks becomes the text
    ["undefined"], not a number and not a missing value.  So a cell of a
    processed row under a header is a number that is not NaN or a text
    that [parseFloat] rejects. *)
Theorem processParsedData_cells (row0 : DataRow) (rest : list DataRow) (st : AppState ml)
    (ds : DataSet) (i : nat) (row row' : DataRow) (h : string) :
  dataSet ml (processParsedData ml Number_toString (row0 :: rest) st).1 = Some ds →
  (row0 :: rest) !! i = Some row →
  data ds !! i = Some row' →
  h ∈ headers ds →
  (∀ s, row_get row h = VStr s →
        row_get row' h =
          if is_nan (parseFloat s) then VStr s else VNum (parseFloat s)) ∧
  (row_get row h = VUndefined → row_get row' h = VStr "undefined") ∧
  ((∃ x, row_get row' h = VNum x ∧ is_nan x = false) ∨
   (∃ s, row_get row' h = VStr s ∧ is_nan (parseFloat s) = true)).
Proof.
  intros Hds Hi Hi' Hh.
  destruct (processParsedData_inv row0 rest st ds Hds) as (_ & Hd & _ & _).
  rewrite Hd, list_lookup_fmap, Hi in Hi'. injection Hi' as <-.
  rewrite coerced_row_get by done. unfold coerced_cell, parsed.
  split; [|split].
  - intros s ->. done.
  - intros ->. done.
  - destruct (is_nan (parseFloat (ToString Number_toString (row_get row h)))) eqn:Hn.
    + right. eauto.
    + left. eauto.
Qed.
End CoercionMore.

(** ** Descriptive statistics: keys and counts *)

Lemma filter_length_le {A} (f g : A → bool) (l : list A) :
  (∀ x, f x = true → g x = true) →
  (length (List.filter f l) ≤ length (List.filter g l))%nat.
Proof.
  intros Hfg. induction l as [|x l IH]; simpl; [done|].
  destruct (f x) eqn:Hf.
  - rewrite (Hfg x Hf). simpl. lia.
  - destruct (g x); simpl; lia.
Qed.

(** The rows the training filter keeps have a clean cell under every
    selected variable. *)
Lemma cleanData_column_length (ds : DataSet) (h : string) :
  length (cleanData ds h []) =
    length (List.filter is_clean (column (data ds) h)).
Proof.
  unfold cleanData, column. cbv zeta. cbn [forallb]. generalize (data ds) as rows.
  induction rows as [|row rows IH]; [done|].
  rewrite fmap_cons. cbn [List.filter]. rewrite andb_true_r.
  destruct (is_clean (row_get row h)); cbn [length]; by rewrite IH.
Qed.

(** X3.  An entry of the descriptive statistics belongs to a numeric
    header, and its [count] is the number of cells of the column that pass
    the filter: at least 1, at most the number of rows, and at least the
    number of rows that the filter of the training would keep for that
    column alone. *)
Theorem stats_entry_count (ss : SS.exports) (ds : DataSet) (h : string)
    (e : ColumnStats.t) :
  stats ss ds !! h = Some e →
  h ∈ numericHeaders ds ∧
  ColumnStats.count e = length (stats_values (data ds) h) ∧
  (1 ≤ ColumnStats.count e ≤ length (data ds))%nat ∧
  (length (cleanData ds h []) ≤ ColumnStats.count e)%nat.
Proof.
  rewrite stats_lookup.
  destruct (decide (h ∈ numericHeaders ds)) as [Hin|Hnin].
  2:{ by rewrite bool_decide_false. }
  rewrite bool_decide_true by done. cbn [andb].
  destruct (0 <? length (stats_values (data ds) h))%nat eqn:Hpos; [|done].
  intros [= <-]. cbn [ColumnStats.count column_entry].
  apply Nat.ltb_lt in Hpos. split; [done|]. split; [done|]. split.
  - split; [lia|]. unfold stats_values, column.
    etrans; [apply List.filter_length_le|]. by rewrite length_fmap.
  - rewrite cleanData_column_length. unfold stats_values.
    apply filter_length_le. intros v Hv. unfold is_clean in Hv.
    by apply andb_prop in Hv as [_ ?].
Qed.

(** X4.  In a data set made by [processParsedData] no numeric column is
    left out of the descriptive statistics: the entries are exactly the
    numeric headers. *)
Theorem stats_of_processed_keys (ss : SS.exports) (ml : ML.exports)
    (Number_toString : float → string)
    (row0 : DataRow) (rest : list DataRow) (st : AppState ml) (ds : DataSet) (h : string) :
  dataSet ml (processParsedData ml Number_toString (row0 :: rest) st).1 = Some ds →
  (is_Some (stats ss ds !! h) ↔ h ∈ numericHeaders ds).
Proof.
  intros Hds. destruct (processParsedData_inv ml Number_toString row0 rest st ds Hds)
    as (_ & Hd & _ & He).
  rewrite stats_lookup. split.
  - destruct (decide (h ∈ numericHeaders ds)); [done|].
    rewrite bool_decide_false by done. by intros []%is_Some_None.
  - intros Hin. rewrite bool_decide_true by done. cbn [andb].
    destruct (proj1 (He h) Hin) as (Hh & row & Hrow & Hp).
    assert (Hv : VNum (parsed Number_toString row h) ∈ stats_values (data ds) h).
    { unfold stats_values. apply list_elem_of_In, List.filter_In. split.
      - apply list_elem_of_In. unfold column. rewrite Hd, <- list_fmap_compose.
        apply list_elem_of_fmap. exists row. split; [|done]. cbn.
        rewrite coerced_row_get by done. unfold coerced_cell. by rewrite Hp.
      - unfold isNaN. cbn. by rewrite Hp. }
    destruct (stats_values (data ds) h) as [|v vs]; [by apply elem_of_nil in Hv|].
    cbn. eauto.
Qed.

(** ** Strings: reversal, trimming and prefixes *)

Lemma string_app_cons (c : ascii) (a b : string) :
  String c a +:+ b = String c (a +:+ b).
Proof. reflexivity. Qed.

Lemma string_app_nil_r (s : string) : s +:+ "" = s.
Proof. induction s as [|c s IH]; [done|]. by rewrite string_app_cons, IH. Qed.

Lemma string_app_assoc (a b c : string) : (a +:+ b) +:+ c = a +:+ (b +:+ c).
Proof. induction a as [|x a IH]; [done|]. by rewrite !string_app_cons, IH. Qed.

Lemma rev_app_spec (s acc : string) :
  String.rev_app s acc = String.rev s +:+ acc.
Proof.
  unfold String.rev. revert acc. induction s as [|c s IH]; intros acc; [done|].
  cbn [String.rev_app]. rewrite (IH (String c "")), IH, string_app_assoc. done.
Qed.

Lemma string_rev_cons (c : ascii) (s : string) :
  String.rev (String c s) = String.rev s +:+ String c "".
Proof. unfold String.rev at 1. cbn [String.rev_app]. apply rev_app_spec. Qed.

Lemma string_rev_app (a b : string) :
  String.rev (a +:+ b) = String.rev b +:+ String.rev a.
Proof.
  induction a as [|c a IH].
  - change (String.rev b = String.rev b +:+ ""). by rewrite string_app_nil_r.
  - rewrite string_app_cons, !string_rev_cons, IH, string_app_assoc. done.
Qed.

Lemma string_rev_involutive (s : string) : String.rev (String.rev s) = s.
Proof.
  induction s as [|c s IH]; [done|].
  rewrite string_rev_cons, string_rev_app, IH. done.
Qed.

(** [strip_prefix] finds the prefix it is asked for, and only that. *)
Lemma strip_prefix_spec (p s rest : string) :
  strip_prefix p s = Some rest ↔ s = p +:+ rest.
Proof.
  revert s. induction p as [|a p IH]; intros s; cbn.
  - split; [by intros [= ->]|by intros ->].
  - destruct s as [|b s]; [split; discriminate|].
    case_bool_decide as Hab.
    + subst b. rewrite IH. split; [by intros ->|by intros [= ->]].
    + split; [discriminate|]. intros [= -> _]. done.
Qed.

(** A string made of white space only. *)
Definition blank (s : string) : Prop := TrimStart s = "".

Lemma blank_cons (c : ascii) (s : string) :
  blank (String c s) ↔ is_white_space c = true ∧ blank s.
Proof.
  unfold blank. cbn. destruct (is_white_space c); [|split; [discriminate|intros [? _]; done]].
  split; [done|by intros [_ ?]].
Qed.

Lemma blank_app (a b : string) : blank a → blank b → blank (a +:+ b).
Proof.
  induction a as [|c a IH]; [done|].
  intros [Hc Ha]%blank_cons Hb. rewrite string_app_cons.
  apply blank_cons. auto.
Qed.

Lemma blank_rev (s : string) : blank s → blank (String.rev s).
Proof.
  induction s as [|c s IH]; [done|].
  intros [Hc Hs]%blank_cons. rewrite string_rev_cons.
  apply blank_app; [auto|]. by apply blank_cons.
Qed.

Lemma TrimStart_split (s : string) :
  ∃ w, s = w +:+ TrimStart s ∧ blank w.
Proof.
  induction s as [|c s (w & Hw & Hb)].
  - by exists "".
  - cbn. destruct (is_white_space c) eqn:Hc.
    + exists (String c w). split; [by rewrite string_app_cons, <- Hw|by apply blank_cons].
    + by exists "".
Qed.

Lemma TrimStart_idemp (s : string) : TrimStart (TrimStart s) = TrimStart s.
Proof.
  induction s as [|c s IH]; [done|].
  cbn. destruct (is_white_space c) eqn:Hc; [done|]. cbn. by rewrite Hc.
Qed.

(** What [TrimStart] leaves is [Trim] followed by white space. *)
Lemma Trim_split (s : string) :
  ∃ w, TrimStart s = Trim s +:+ w ∧ blank w.
Proof.
  unfold Trim, TrimEnd.
  destruct (TrimStart_split (String.rev (TrimStart s))) as (w & Hw & Hb).
  exists (String.rev w). split; [|by apply blank_rev].
  rewrite <- string_rev_app, <- Hw. by rewrite string_rev_involutive.
Qed.

Lemma Trim_blank (s : string) : blank s → Trim s = "".
Proof. unfold blank, Trim. by intros ->. Qed.

(** [endsWith] is the suffix test. *)
Lemma endsWith_spec (s suffix : string) :
  FileUpload.endsWith s suffix = true ↔ ∃ p, s = p +:+ suffix.
Proof.
  unfold FileUpload.endsWith.
  destruct (strip_prefix (String.rev suffix) (String.rev s)) as [r|] eqn:E.
  - apply strip_prefix_spec in E. split; [intros _|done].
    exists (String.rev r).
    rewrite <- (string_rev_involutive s), E, string_rev_app, string_rev_involutive. done.
  - split; [discriminate|]. intros (p & ->).
    rewrite string_rev_app in E.
    assert (strip_prefix (String.rev suffix) (String.rev suffix +:+ String.rev p)
            = Some (String.rev p)) as Hs by (by apply strip_prefix_spec).
    congruence.
Qed.

(** ** [parseFloat] against [Number]: the strings one rejects and the
    other accepts *)

Lemma white_space_cases (c : ascii) :
  is_white_space c = true →
  c ∈ ["009"; "010"; "011"; "012"; "013"; " "]%char.
Proof.
  destruct c as [[] [] [] [] [] [] [] []]; intros H; try discriminate H;
    set_solver.
Qed.

Ltac white_space c H :=
  let Hin := fresh in
  pose proof (white_space_cases c H) as Hin;
  repeat (apply elem_of_cons in Hin as [->|Hin]);
  [..|by apply elem_of_nil in Hin].

Lemma DecimalDigits_blank (w : string) : blank w → DecimalDigits w = ([], w).
Proof.
  destruct w as [|c w]; [done|]. intros [Hc _]%blank_cons.
  white_space c Hc; reflexivity.
Qed.

Lemma DecimalDigits_app (a w : string) :
  blank w →
  DecimalDigits (a +:+ w) = ((DecimalDigits a).1, (DecimalDigits a).2 +:+ w).
Proof.
  intros Hw. induction a as [|c a IH].
  - change (DecimalDigits w = ([], w)). by apply DecimalDigits_blank.
  - rewrite string_app_cons. cbn [DecimalDigits]. destruct (is_digit c); [|done].
    rewrite IH. by destruct (DecimalDigits a).
Qed.

Lemma take_sign_unfold (c : ascii) (r : string) :
  take_sign (String c r)
  = if bool_decide (c = "-"%char) then (true, r)
    else if bool_decide (c = "+"%char) then (false, r)
    else (false, String c r).
Proof. destruct c as [[] [] [] [] [] [] [] []]; reflexivity. Qed.

Lemma take_sign_app (a w : string) :
  blank w →
  take_sign (a +:+ w) = ((take_sign a).1, (take_sign a).2 +:+ w).
Proof.
  intros Hw. destruct a as [|c a].
  - destruct w as [|d w]; [done|]. apply blank_cons in Hw as [Hd _].
    white_space d Hd; reflexivity.
  - rewrite string_app_cons, !take_sign_unfold.
    repeat case_bool_decide; done.
Qed.

Lemma ExponentPart_app (a w : string) :
  blank w →
  ExponentPart (a +:+ w) = ((ExponentPart a).1, (ExponentPart a).2 +:+ w).
Proof.
  intros Hw. destruct a as [|c a].
  - destruct w as [|d w]; [done|]. apply blank_cons in Hw as [Hd _].
    white_space d Hd; reflexivity.
  - rewrite string_app_cons. cbn [ExponentPart].
    destruct (bool_decide (c = "e"%char) || bool_decide (c = "E"%char)); [|done].
    rewrite take_sign_app by done. destruct (take_sign a) as [eneg r1]. cbn [fst snd].
    rewrite DecimalDigits_app by done. destruct (DecimalDigits r1) as [ed r2].
    cbn [fst snd]. by destruct ed.
Qed.

(** The fraction of a decimal literal, as [StrDecimalLiteral] reads it. *)
Definition FractionPart (ip : list ascii) (s2 : string) : list ascii * string :=
match s2 with
| String "." r => let '(fp, r') := DecimalDigits r in
                  match ip, fp with [], [] => ([], s2) | _, _ => (fp, r') end
| _ => ([], s2)
end.

Lemma StrDecimalLiteral_unfold (s : string) :
  StrDecimalLiteral s =
  let '(neg, s1) := take_sign s in
  match strip_prefix "Infinity" s1 with
  | Some rest => Some (signed neg infinity, rest)
  | None =>
    let '(ip, s2) := DecimalDigits s1 in
    let '(fp, s3) := FractionPart ip s2 in
    match ip, fp with
    | [], [] => None
    | _, _ =>
        let '(ex, s4) := ExponentPart s3 in
        let ds := ip ++ fp in
        Some (decimal_to_float neg (digits_value ds) (Z.of_nat (length ds))
                (ex - Z.of_nat (length fp)), s4)
    end
  end.
Proof. reflexivity. Qed.

Lemma FractionPart_unfold (ip : list ascii) (c : ascii) (r : string) :
  FractionPart ip (String c r)
  = if bool_decide (c = "."%char) then
      let '(fp, r') := DecimalDigits r in
      match ip, fp with [], [] => ([], String c r) | _, _ => (fp, r') end
    else ([], String c r).
Proof. destruct c as [[] [] [] [] [] [] [] []]; reflexivity. Qed.

Lemma FractionPart_app (ip : list ascii) (s2 w : string) :
  blank w →
  FractionPart ip (s2 +:+ w)
  = ((FractionPart ip s2).1, (FractionPart ip s2).2 +:+ w).
Proof.
  intros Hw. destruct s2 as [|c s2].
  - destruct w as [|d w]; [done|]. apply blank_cons in Hw as [Hd _].
    white_space d Hd; reflexivity.
  - rewrite string_app_cons, !FractionPart_unfold.
    case_bool_decide; [|done].
    rewrite DecimalDigits_app by done. destruct (DecimalDigits s2) as [fp r'].
    cbn [fst snd]. by destruct ip, fp.
Qed.

Lemma strip_prefix_app_Some (p s rest w : string) :
  strip_prefix p s = Some rest → strip_prefix p (s +:+ w) = Some (rest +:+ w).
Proof.
  intros ->%strip_prefix_spec. apply strip_prefix_spec.
  by rewrite string_app_assoc.
Qed.

Lemma strip_prefix_app_None (p s w : string) :
  Forall (λ c, is_white_space c = false) (String.list_ascii_of_string p) →
  blank w →
  strip_prefix p s = None → strip_prefix p (s +:+ w) = None.
Proof.
  intros Hp Hw. revert s. induction p as [|a p IH]; intros s; [done|].
  cbn [String.list_ascii_of_string] in Hp. apply Forall_cons in Hp as [Ha Hp].
  destruct s as [|b s].
  - intros _. destruct w as [|d w]; [done|]. apply blank_cons in Hw as [Hd _].
    change (strip_prefix (String a p) (String d w) = None). cbn [strip_prefix].
    rewrite bool_decide_false; [done|]. congruence.
  - rewrite string_app_cons. cbn [strip_prefix].
    case_bool_decide; [by apply IH|done].
Qed.

(** A decimal literal at the start of a string is read the same way when
    white space follows the string. *)
Lemma StrDecimalLiteral_app (a b w : string) (x : float) :
  blank w →
  StrDecimalLiteral a = Some (x, b) →
  StrDecimalLiteral (a +:+ w) = Some (x, b +:+ w).
Proof.
  intros Hw. rewrite !StrDecimalLiteral_unfold, take_sign_app by done.
  destruct (take_sign a) as [neg s1]. cbn [fst snd].
  destruct (strip_prefix "Infinity" s1) as [rest|] eqn:E.
  - rewrite (strip_prefix_app_Some _ _ _ w E). by intros [= <- <-].
  - rewrite (strip_prefix_app_None _ _ w); [|by repeat constructor|done..].
    rewrite DecimalDigits_app by done. destruct (DecimalDigits s1) as [ip s2].
    cbn [fst snd]. rewrite FractionPart_app by done.
    destruct (FractionPart ip s2) as [fp s3]. cbn [fst snd].
    destruct ip as [|i ip], fp as [|f fp]; [done|..];
      (rewrite ExponentPart_app by done; destruct (ExponentPart s3) as [ex s4];
       cbn [fst snd]; by intros [= <- <-]).
Qed.

Lemma radix_digit_nonneg (c : ascii) (d : Z) : radix_digit c = Some d → 0 ≤ d.
Proof.
  unfold radix_digit. cbv zeta. generalize (N_of_ascii c) as n. intros n.
  destruct (48 <=? n)%N eqn:E1; destruct (n <=? 57)%N eqn:E2;
    destruct (97 <=? n)%N eqn:E3; destruct (n <=? 102)%N eqn:E4;
    destruct (65 <=? n)%N eqn:E5; destruct (n <=? 70)%N eqn:E6;
    cbn [andb]; intros [= <-];
    repeat match goal with
           | H : (_ <=? _)%N = true |- _ => apply N.leb_le in H
           | H : (_ <=? _)%N = false |- _ => apply N.leb_gt in H
           end; lia.
Qed.

(** A [0x], [0o] or [0b] literal starts with a zero and a radix letter. *)
Lemma NonDecimalIntegerLiteral_inv (t : string) (y : float) :
  NonDecimalIntegerLiteral t = Some y →
  ∃ c rest, t = String "0" (String c rest)
            ∧ c ∈ ["x"; "X"; "o"; "O"; "b"; "B"]%char.
Proof.
  destruct t as [|a [|c [|d r]]]; [done|..];
    destruct a as [[] [] [] [] [] [] [] []]; try discriminate.
  unfold NonDecimalIntegerLiteral. intros H. exists c, (String d r). split; [done|].
  repeat (case_bool_decide; [subst c; set_solver|]).
  cbn [orb] in H. cbn [radix_value] in H.
  destruct (radix_digit d) as [n|] eqn:En; [|done].
  apply radix_digit_nonneg in En. apply Z.ltb_ge in En. by rewrite En in H.
Qed.

Lemma StrDecimalLiteral_zero_radix (c : ascii) (rest : string) :
  c ∈ ["x"; "X"; "o"; "O"; "b"; "B"]%char →
  ∃ x, StrDecimalLiteral (String "0" (String c rest)) = Some (x, String c rest)
       ∧ is_nan x = false.
Proof.
  intros Hc. repeat (apply elem_of_cons in Hc as [->|Hc]);
    [..|by apply elem_of_nil in Hc]; by exists 0%float.
Qed.

(** The strings that [parseFloat] rejects and [Number] converts to a number
    are the blank ones, and [Number] makes them [0]. *)
Lemma blank_iff_unparsed_number (s : string) :
  is_nan (parseFloat s) = true ∧ is_nan (StringToNumber s) = false ↔ blank s.
Proof.
  split.
  - intros [Hp Hn]. unfold blank.
    destruct (Trim_split s) as (w & Hs & Hw).
    unfold parseFloat in Hp. unfold StringToNumber in Hn.
    destruct (Trim s) as [|c t] eqn:Et.
    { change (TrimStart s = w) in Hs. rewrite <- (TrimStart_idemp s), Hs. done. }
    exfalso. rewrite Hs in Hp.
    destruct (StrDecimalLiteral (String c t)) as [[x rest]|] eqn:Ed.
    + rewrite (StrDecimalLiteral_app _ _ w x Hw Ed) in Hp.
      destruct rest as [|r rest]; [congruence|].
      cbn [default] in Hn.
      destruct (NonDecimalIntegerLiteral (String c t)) as [y|] eqn:Ey; [|done].
      apply NonDecimalIntegerLiteral_inv in Ey as (c' & rest' & Ec & Hc).
      destruct (StrDecimalLiteral_zero_radix c' rest' Hc) as (x' & Ex & Hx).
      rewrite Ec in Ed. congruence.
    + destruct (NonDecimalIntegerLiteral (String c t)) as [y|] eqn:Ey; [|done].
      apply NonDecimalIntegerLiteral_inv in Ey as (c' & rest' & Ec & Hc).
      destruct (StrDecimalLiteral_zero_radix c' rest' Hc) as (x' & Ex & Hx).
      rewrite Ec in Ed. congruence.
  - intros Hb. unfold parseFloat, StringToNumber.
    rewrite (Trim_blank s Hb). unfold blank in Hb. by rewrite Hb.
Qed.


(** ** Model training: what a fit needs and what it hands on *)

Section TrainingMore.
Context (ss : SS.exports) (ml : ML.exports).
Implicit Types (ds : DataSet) (st : AppState ml).

Lemma cleanData_nil ds dep indep v :
  v ∈ dep :: indep →
  (∀ row, row ∈ data ds → is_clean (row_get row v) = false) →
  cleanData ds dep indep = [].
Proof.
  intros Hv Hrows. unfold cleanData. cbv zeta.
  induction (data ds) as [|row rows IH]; [done|]. cbn [List.filter].
  assert (forallb (λ v0, is_clean (row_get row v0)) (dep :: indep) = false) as ->.
  { apply not_true_is_false. rewrite forallb_forall. intros Hall.
    specialize (Hall v (proj1 (list_elem_of_In _ _) Hv)).
    rewrite Hrows in Hall; [done|by left]. }
  apply IH. intros r Hr. apply Hrows. by right.
Qed.

(** In a data set made by [processParsedData], a name outside the numeric
    headers has a clean cell in no row. *)
Lemma not_numeric_not_clean (Number_toString : float → string)
    (row0 : DataRow) (rest : list DataRow) (st0 : AppState ml) ds (v : string) row :
  dataSet ml (processParsedData ml Number_toString (row0 :: rest) st0).1 = Some ds →
  v ∉ numericHeaders ds → row ∈ data ds → is_clean (row_get row v) = false.
Proof.
  intros Hds Hv Hrow.
  destruct (processParsedData_inv ml Number_toString row0 rest st0 ds Hds)
    as (_ & Hd & _ & He).
  rewrite Hd in Hrow. apply list_elem_of_fmap in Hrow as (src & -> & Hsrc).
  destruct (decide (v ∈ headers ds)) as [Hh|Hh].
  - rewrite coerced_row_get by done. unfold coerced_cell.
    destruct (is_nan (parsed Number_toString src v)) eqn:Hp; [done|].
    exfalso. apply Hv, He. eauto.
  - by rewrite coerced_row_get_other.
Qed.

(** X6.  In a data set made by [processParsedData], a fit whose selection
    names a variable outside the numeric headers (a text column, or a name
    that is no header of this file, as a selection made for an earlier file
    can be) fails with the insufficient-data alert, whatever the other
    variables are, and leaves the state as it was: no row is clean, and
    neither package is called. *)
Theorem fit_needs_numeric_headers (Number_toString : float → string)
    (row0 : DataRow) (rest : list DataRow) (st0 : AppState ml) ds dep indep st
    (v : string) :
  dataSet ml (processParsedData ml Number_toString (row0 :: rest) st0).1 = Some ds →
  dep ≠ "" → indep ≠ [] →
  v ∈ dep :: indep → v ∉ numericHeaders ds →
  cleanData ds dep indep = [] ∧
  handleTrainModel ss ml ds dep indep st = (st, [InsufficientDataError]).
Proof.
  intros Hds Hd Hi Hv Hnum.
  assert (Hc : cleanData ds dep indep = []).
  { apply (cleanData_nil ds dep indep v Hv). intros row Hrow.
    by eapply not_numeric_not_clean. }
  split; [done|]. unfold handleTrainModel. cbv zeta.
  rewrite (selection_guard dep indep Hd Hi), Hc.
  rewrite (proj2 (Nat.ltb_lt _ _)); [done|]. cbn [length]. lia.
Qed.

(** X7.  The constructor of the regression receives a design matrix with
    one row for each clean row and one column for each independent
    variable, in the order of the selection, and a response of the same
    number of rows; every entry of both is a number that is not NaN. *)
Theorem constructor_input_numeric ds dep indep :
  length (design ds dep indep) = length (cleanData ds dep indep) ∧
  length (response ds dep indep) = length (cleanData ds dep indep) ∧
  Forall (λ xs, length xs = length indep ∧
                Forall (λ v, ∃ x, v = VNum x ∧ is_nan x = false) xs)
         (design ds dep indep) ∧
  Forall (λ v, ∃ x, v = VNum x ∧ is_nan x = false) (response ds dep indep) ∧
  (∀ i row, cleanData ds dep indep !! i = Some row →
     design ds dep indep !! i = Some ((λ key, row_get row key) <$> indep) ∧
     response ds dep indep !! i = Some (row_get row dep)).
Proof.
  unfold design, response, column. rewrite !length_fmap.
  split; [done|]. split; [done|]. split; [|split].
  - apply Forall_fmap, Forall_forall. intros row Hrow. cbn.
    rewrite length_fmap. split; [done|].
    apply Forall_fmap, Forall_forall. intros v Hv. cbn.
    apply cleanData_spec in Hrow as [_ Hall]. apply Hall. by right.
  - apply Forall_fmap, Forall_forall. intros row Hrow. cbn.
    apply cleanData_spec in Hrow as [_ Hall]. apply Hall. by left.
  - intros i row Hi. rewrite !list_lookup_fmap, Hi. done.
Qed.

(** X8.  A fit that shows no alert had a dependent variable and at least
    one independent variable, at least [k + 2] clean rows, a model whose
    weights all start with a number that is not NaN, and a total sum of
    squares that is not zero; the record it installs holds the first
    weight as the intercept and the remaining rows of weights, flattened,
    as the coefficients. *)
Theorem successful_fit ds dep indep st :
  (handleTrainModel ss ml ds dep indep st).2 = [] →
  dep ≠ "" ∧ indep ≠ [] ∧
  (length indep + 2 ≤ length (cleanData ds dep indep))%nat ∧
  ∃ m w0 ws res,
    ML.construct ml (design ds dep indep) (response ds dep indep) = Some m ∧
    ML.weights ml m = w0 :: ws ∧
    (∀ w, w ∈ w0 :: ws → ∃ x, first_weight w = VNum x ∧ is_nan x = false) ∧
    (ssTotal_of (response ds dep indep) (SS.mean ss (response ds dep indep)) =? 0)%float
      = false ∧
    (handleTrainModel ss ml ds dep indep st).1
      = handleModelTrain ml m res indep dep st ∧
    intercept res = first_weight w0 ∧
    coefficients res = concat ws.
Proof.
  unfold handleTrainModel, design, response. cbv zeta.
  destruct (bool_decide (dep = "") || bool_decide (length indep = 0%nat)) eqn:Hg;
    [discriminate|].
  apply orb_false_iff in Hg as [Hd%bool_decide_eq_false Hi%bool_decide_eq_false].
  destruct (length (cleanData ds dep indep) <? length indep + 2)%nat eqn:Hn;
    [discriminate|]. apply Nat.ltb_ge in Hn.
  destruct (ML.construct ml _ _) as [m|]; [|discriminate].
  destruct (existsb _ (ML.weights ml m)) eqn:Hw; [discriminate|].
  destruct (_ =? 0)%float eqn:Hz; [discriminate|].
  destruct (ML.weights ml m) as [|w0 ws] eqn:Hws; [discriminate|].
  intros _. split; [done|]. split; [by intros ->|]. split; [done|].
  eexists m, w0, ws, _. split; [done|]. split; [done|].
  split; [|split; [done|split; [reflexivity|done]]].
  intros w Hin.
  assert (Hf : isNaN (first_weight w) = false).
  { apply not_true_is_false. intros Hnan.
    assert (existsb (λ w, isNaN (first_weight w)) (w0 :: ws) = true); [|congruence].
    apply existsb_exists. exists w. split; [by apply list_elem_of_In|done]. }
  destruct w as [|x w]; [done|]. exists x. done.
Qed.
End TrainingMore.

(** ** [ModelTrainer]: the selection *)

Lemma filter_ne_absent (x : string) (l : list string) :
  x ∉ l → List.filter (λ v, negb (bool_decide (v = x))) l = l.
Proof.
  induction l as [|y l IH]; [done|]. intros Hx. cbn [List.filter].
  rewrite bool_decide_false by (intros ->; apply Hx; by left). cbn [negb].
  f_equal. apply IH. intros ?. apply Hx. by right.
Qed.

Lemma elem_of_filter_bool (f : string → bool) (l : list string) (v : string) :
  v ∈ List.filter f l ↔ v ∈ l ∧ f v = true.
Proof. by rewrite list_elem_of_In, List.filter_In, <- list_elem_of_In. Qed.

Lemma NoDup_filter_bool (f : string → bool) (l : list string) :
  NoDup l → NoDup (List.filter f l).
Proof.
  induction 1 as [|x l Hx Hl IH]; cbn [List.filter]; [apply NoDup_nil_2|].
  destruct (f x); [|done]. apply NoDup_cons. split; [|done].
  rewrite elem_of_filter_bool. by intros [? _].
Qed.

Lemma toggle_NoDup (x : string) (s : ModelTrainer.state) :
  NoDup (ModelTrainer.independentVars s) →
  NoDup (ModelTrainer.independentVars (ModelTrainer.handleIndependentVarToggle x s)).
Proof.
  intros Hnd. unfold ModelTrainer.handleIndependentVarToggle.
  cbn [ModelTrainer.independentVars]. case_bool_decide.
  - by apply NoDup_filter_bool.
  - apply NoDup_app. split; [done|]. split; [|apply NoDup_singleton].
    intros v Hv ->%list_elem_of_singleton. done.
Qed.

(** X9.  A box toggles its variable and nothing else: the variable is
    selected afterwards exactly when it was not before, the other
    variables and the dependent variable stay as they were, a selection
    without repetition stays so, a newly selected variable goes to the end
    of the selection (the order of the columns of the design matrix), and
    selecting then unselecting a variable restores the selection. *)
Theorem handleIndependentVarToggle_spec (x : string) (s : ModelTrainer.state) :
  let s' := ModelTrainer.handleIndependentVarToggle x s in
  ModelTrainer.dependentVar s' = ModelTrainer.dependentVar s ∧
  (x ∈ ModelTrainer.independentVars s' ↔ x ∉ ModelTrainer.independentVars s) ∧
  (∀ v, v ≠ x →
        (v ∈ ModelTrainer.independentVars s' ↔ v ∈ ModelTrainer.independentVars s)) ∧
  (NoDup (ModelTrainer.independentVars s) → NoDup (ModelTrainer.independentVars s')) ∧
  (x ∉ ModelTrainer.independentVars s →
     ModelTrainer.independentVars s' = ModelTrainer.independentVars s ++ [x] ∧
     ModelTrainer.handleIndependentVarToggle x s' = s).
Proof.
  cbv zeta. split; [done|].
  split; [|split; [|split; [apply toggle_NoDup|]]];
    destruct s as [dep indep];
    unfold ModelTrainer.handleIndependentVarToggle;
    cbn [ModelTrainer.dependentVar ModelTrainer.independentVars];
    (destruct (decide (x ∈ indep)) as [Hin|Hnin];
     [rewrite bool_decide_true by done|rewrite bool_decide_false by done]).
  - rewrite elem_of_filter_bool, bool_decide_true by done. cbn.
    split; [by intros [_ ?]|done].
  - rewrite elem_of_app, list_elem_of_singleton. tauto.
  - intros v Hv. rewrite elem_of_filter_bool, bool_decide_false by done. cbn. tauto.
  - intros v Hv. rewrite elem_of_app, list_elem_of_singleton. tauto.
  - done.
  - intros _. split; [done|].
      rewrite bool_decide_true by (rewrite elem_of_app, list_elem_of_singleton; tauto).
      f_equal. rewrite List.filter_app, filter_ne_absent by done. cbn [List.filter].
      rewrite bool_decide_true by done. cbn. by rewrite app_nil_r.
Qed.

(** The selections the component can hold on the data set [ds]: a
    dependent variable that is a numeric header or not chosen yet, and
    independent variables that are numeric headers other than it. *)
Definition valid_selection (ds : DataSet) (s : ModelTrainer.state) : Prop :=
  (ModelTrainer.dependentVar s = "" ∨ ModelTrainer.dependentVar s ∈ numericHeaders ds) ∧
  ∀ v, v ∈ ModelTrainer.independentVars s →
       v ∈ numericHeaders ds ∧ v ≠ ModelTrainer.dependentVar s.

Lemma valid_selection_step (ds : DataSet) (s : ModelTrainer.state)
    (ev : ModelTrainer.event) :
  valid_selection ds s → valid_selection ds (ModelTrainer.step ds s ev).
Proof.
  intros [Hd Hi]. destruct ev as [value|varName|dep indep]; cbn [ModelTrainer.step].
  - case_bool_decide as Hv; [|done]. split; cbn.
    + apply elem_of_cons in Hv as [->|Hv]; auto.
    + intros v []%elem_of_nil.
  - case_bool_decide as Hv; [|done].
    unfold ModelTrainer.availableIndependentVars in Hv.
    apply elem_of_filter_bool in Hv as [Hnum Hne].
    apply negb_true_iff, bool_decide_eq_false in Hne.
    split; cbn; [done|]. intros v. case_bool_decide.
    + intros [Hv _]%elem_of_filter_bool. auto.
    + rewrite elem_of_app, list_elem_of_singleton. intros [Hv| ->]; auto.
  - unfold ModelTrainer.applySuggestions.
    case_bool_decide; [|done]. case_bool_decide as Hnum; [|done].
    split; cbn; [auto|]. intros v [_ Hv]%elem_of_filter_bool.
    apply andb_true_iff in Hv as [Hv1%bool_decide_eq_true Hv2%negb_true_iff].
    by apply bool_decide_eq_false in Hv2.
Qed.

Lemma NoDup_selection_step (ds : DataSet) (s : ModelTrainer.state)
    (ev : ModelTrainer.event) :
  (∀ dep indep, ev = ModelTrainer.Suggested dep indep → NoDup indep) →
  NoDup (ModelTrainer.independentVars s) →
  NoDup (ModelTrainer.independentVars (ModelTrainer.step ds s ev)).
Proof.
  intros Hev Hnd. destruct ev as [value|varName|dep indep]; cbn [ModelTrainer.step].
  - case_bool_decide; [apply NoDup_nil_2|done].
  - case_bool_decide; [|done].
    by apply toggle_NoDup.
  - unfold ModelTrainer.applySuggestions.
    case_bool_decide; [|done]. case_bool_decide; [|done]. cbn.
    apply NoDup_filter_bool. by eapply Hev.
Qed.

(** X10.  The selection stays valid on a data set: whatever the sequence
    of choices in the list, of boxes toggled and of suggestions received,
    the dependent variable is the empty choice or a numeric header, and
    every independent variable is a numeric header other than the
    dependent variable.  Repetitions among the independent variables can
    only come from a suggestion that has some. *)
Theorem selection_stays_valid (ds : DataSet) (s0 : ModelTrainer.state)
    (events : list ModelTrainer.event) :
  valid_selection ds s0 →
  let s := foldl (ModelTrainer.step ds) s0 events in
  (ModelTrainer.dependentVar s = "" ∨ ModelTrainer.dependentVar s ∈ numericHeaders ds) ∧
  (∀ v, v ∈ ModelTrainer.independentVars s →
        v ∈ numericHeaders ds ∧ v ≠ ModelTrainer.dependentVar s) ∧
  (NoDup (ModelTrainer.independentVars s0) →
   (∀ dep indep, ModelTrainer.Suggested dep indep ∈ events → NoDup indep) →
   NoDup (ModelTrainer.independentVars s)).
Proof.
  intros Hv. cbv zeta. revert s0 Hv.
  induction events as [|ev events IH]; intros s0 Hv; cbn [foldl].
  - destruct Hv as [Hd Hi]. split; [done|]. split; [done|]. auto.
  - destruct (IH (ModelTrainer.step ds s0 ev) (valid_selection_step ds s0 ev Hv))
      as (Hd & Hi & Hn).
    split; [done|]. split; [done|]. intros Hnd Hsug. apply Hn.
    + apply NoDup_selection_step; [|done]. intros dep indep ->. apply (Hsug dep). by left.
    + intros dep indep Hin. apply (Hsug dep). by right.
Qed.

(** X11.  The button is disabled under exactly the condition of the first
    guard of [handleTrainModel], so a press on it never shows the alert
    that asks for a selection: it does nothing when the button is
    disabled, and otherwise the fit goes past that guard. *)
Theorem trainClick_past_selection_guard (ss : SS.exports) (ml : ML.exports)
    (ds : DataSet) (s : ModelTrainer.state) (st : AppState ml) :
  let r := ModelTrainer.trainClick ss ml ds s st in
  let fit := handleTrainModel ss ml ds (ModelTrainer.dependentVar s)
               (ModelTrainer.independentVars s) st in
  (ModelTrainer.trainDisabled s = true ↔ fit = (st, [MissingSelection])) ∧
  (ModelTrainer.trainDisabled s = true → r = (st, [])) ∧
  (ModelTrainer.trainDisabled s = false → r = fit) ∧
  MissingSelection ∉ r.2.
Proof.
  cbv zeta. unfold ModelTrainer.trainClick, ModelTrainer.trainDisabled.
  assert (Hpast :
    bool_decide (ModelTrainer.dependentVar s = "")
    || bool_decide (length (ModelTrainer.independentVars s) = 0%nat) = false →
    MissingSelection ∉
      (handleTrainModel ss ml ds (ModelTrainer.dependentVar s)
         (ModelTrainer.independentVars s) st).2).
  { intros Hg. unfold handleTrainModel. cbv zeta. rewrite Hg.
    repeat case_match; cbn [snd]; intros Hin;
      repeat (apply elem_of_cons in Hin as [Hin|Hin]; [discriminate|]);
      by apply elem_of_nil in Hin. }
  destruct (bool_decide (ModelTrainer.dependentVar s = "")
            || bool_decide (length (ModelTrainer.independentVars s) = 0%nat)) eqn:Hg.
  - split; [|split; [done|split; [done|]]].
    + split; [intros _|done]. unfold handleTrainModel. by rewrite Hg.
    + cbn. apply not_elem_of_nil.
  - split; [|split; [done|split; [done|by apply Hpast]]].
    split; [done|]. intros Hfit. exfalso. apply Hpast; [done|].
    rewrite Hfit. cbn. by left.
Qed.

(** ** [WorkflowSidebar]: the guide *)

(** How far a step is: completed before active before pending. *)
Definition status_rank (s : StepStatus) : Z :=
match s with
| completed => 0
| active => 1
| pending => 2
end.

Ltac step_cases :=
  unfold getStepStatus;
  repeat match goal with
         | |- context [?a =? ?b] => destruct (Z.eqb_spec a b)
         | |- context [?a <=? ?b] => destruct (Z.leb_spec a b)
         | |- context [?a <? ?b] => destruct (Z.ltb_spec a b)
         end;
  cbn; try lia; try done.

(** X12.  The guide reads from top to bottom: for step numbers from 1 on,
    no step is further than a later one (the completed steps come first,
    then the active ones, then the pending ones).  Loading data and training
    a model never move a step back.  The steps 6 and 7 are never active:
    they go from pending to completed when a model is trained; with a
    model, no step is pending.  Without a data set the model is not looked
    at. *)
Theorem getStepStatus_ordered (isDataLoaded isModelTrained : bool) (i j : Z) :
  1 ≤ i → i ≤ j →
  status_rank (getStepStatus isDataLoaded isModelTrained i)
    ≤ status_rank (getStepStatus isDataLoaded isModelTrained j) ∧
  (status_rank (getStepStatus true true i)
     ≤ status_rank (getStepStatus true false i)
     ≤ status_rank (getStepStatus false isModelTrained i)) ∧
  (5 < i ≤ 7 → getStepStatus isDataLoaded isModelTrained i ≠ active) ∧
  getStepStatus true true i ≠ pending ∧
  getStepStatus false isModelTrained i = getStepStatus false false i.
Proof.
  intros Hi Hij. split; [|split; [|split; [|split]]].
  - destruct isDataLoaded, isModelTrained; step_cases.
  - destruct isModelTrained; step_cases.
  - intros H67. destruct isDataLoaded, isModelTrained; step_cases.
  - step_cases.
  - by destruct isModelTrained.
Qed.

(** ** [FileUpload]: the outcome of an upload *)

Section UploadMore.
Context (ml : ML.exports).
Variable Number_toString : float → string.

(** A non-empty input always makes a data set, and the model and the
    suggestions go. *)
Lemma processParsedData_success (row0 : DataRow) (rest : list DataRow)
    (st : AppState ml) :
  ∃ ds, processParsedData ml Number_toString (row0 :: rest) st
        = ({| isLoading := false; dataSet := Some ds; trained := None;
              variableSuggestions := None |}, []).
Proof.
  unfold processParsedData.
  destruct (process_rows _ _ _ _) as [processed nh]. by eexists.
Qed.

Variable Papa_parse : FileUpload.File → list DataRow + string.
Variable XLSX_rows : FileUpload.File → option (list DataRow).

(** X13.  Every upload whose parser has called back ends with the spinner
    off.  It shows nothing and installs a new data set, discarding the
    model and the suggestions, exactly when the parser chosen by the end of
    the file name yields at least one row; otherwise it shows one notice
    and the data set, the model and the suggestions stay as they were.  The notice is the
    unsupported-format one exactly when the name ends neither in [.csv]
    nor in [.xlsx], in these very letters: the test is case-sensitive and
    the content of the file is not looked at. *)
Theorem handleFile_outcome (file : FileUpload.File) (st : AppState ml) :
  let r := FileUpload.handleFile ml Number_toString Papa_parse XLSX_rows file st in
  let yields rows :=
    (FileUpload.endsWith (FileUpload.name file) ".csv" = true ∧
     Papa_parse file = inl rows) ∨
    (FileUpload.endsWith (FileUpload.name file) ".csv" = false ∧
     FileUpload.endsWith (FileUpload.name file) ".xlsx" = true ∧
     XLSX_rows file = Some rows) in
  isLoading ml r.1 = false ∧
  ((r.2 = [] ∧
    ∃ row0 rest ds, yields (row0 :: rest) ∧
      dataSet ml r.1 = Some ds ∧ trained ml r.1 = None ∧
      variableSuggestions ml r.1 = None ∧
      headers ds = Object_keys row0 ∧ length (data ds) = S (length rest)) ∨
   ((∃ notice, r.2 = [notice]) ∧ (∀ row0 rest, ¬ yields (row0 :: rest)) ∧
    dataSet ml r.1 = dataSet ml st ∧ trained ml r.1 = trained ml st ∧
    variableSuggestions ml r.1 = variableSuggestions ml st)) ∧
  (r.2 = [FileUpload.UnsupportedFormat] ↔
   (¬ ∃ p, FileUpload.name file = p +:+ ".csv") ∧
   (¬ ∃ p, FileUpload.name file = p +:+ ".xlsx")).
Proof.
  cbv zeta. rewrite <- !endsWith_spec. unfold FileUpload.handleFile. cbv zeta.
  assert (Hgood : ∀ row0 rest,
    let r := processParsedData ml Number_toString (row0 :: rest) (setIsLoading ml true st) in
    isLoading ml r.1 = false ∧ r.2 = [] ∧
    ∃ ds, dataSet ml r.1 = Some ds ∧ trained ml r.1 = None ∧
          variableSuggestions ml r.1 = None ∧
          headers ds = Object_keys row0 ∧ length (data ds) = S (length rest)).
  { intros row0 rest. cbv zeta.
    destruct (processParsedData_success row0 rest (setIsLoading ml true st)) as [ds Hds].
    pose proof (processParsedData_inv ml Number_toString row0 rest
                  (setIsLoading ml true st) ds) as Hinv.
    rewrite Hds in Hinv |- *. cbn [fst snd dataSet] in Hinv.
    destruct (Hinv eq_refl) as (Hh & Hd & _). cbn.
    split; [done|]. split; [done|]. exists ds. repeat split; [done|].
    by rewrite Hd, length_fmap. }
  destruct (FileUpload.endsWith (FileUpload.name file) ".csv") eqn:Ec.
  - destruct (Papa_parse file) as [[|row0 rest]|message] eqn:Ep.
    + cbn. split; [done|]. split; [|split; [discriminate|by intros [? _]]].
      right. split; [eauto|]. split; [|done].
      intros row0 rest [[_ [=]]|[[=] _]].
    + destruct (Hgood row0 rest) as (Hl & Ha & ds & Hds).
      destruct (processParsedData _ _ _ _) as [st' alerts]. cbn [fst snd] in *.
      subst alerts. cbn. split; [done|]. split; [|split; [discriminate|by intros [? _]]].
      left. split; [done|]. exists row0, rest, ds. split; [|done]. left. done.
    + cbn. split; [done|]. split; [|split; [discriminate|by intros [? _]]].
      right. split; [eauto|]. split; [|done].
      intros row0 rest [[_ [=]]|[[=] _]].
  - destruct (FileUpload.endsWith (FileUpload.name file) ".xlsx") eqn:Ex.
    + destruct (XLSX_rows file) as [[|row0 rest]|] eqn:Ep.
      * cbn. split; [done|]. split; [|split; [discriminate|by intros [_ ?]]].
        right. split; [eauto|]. split; [|done].
        intros row0 rest [[[=] _]|(_ & _ & [=])].
      * destruct (Hgood row0 rest) as (Hl & Ha & ds & Hds).
        destruct (processParsedData _ _ _ _) as [st' alerts]. cbn [fst snd] in *.
        subst alerts. cbn. split; [done|]. split; [|split; [discriminate|by intros [_ ?]]].
        left. split; [done|]. exists row0, rest, ds. split; [|done]. right. done.
      * cbn. split; [done|]. split; [|split; [discriminate|by intros [_ ?]]].
        right. split; [eauto|]. split; [|done].
        intros row0 rest [[[=] _]|(_ & _ & [=])].
    + cbn. split; [done|]. split; [|split; [done|]].
      * right. split; [eauto|]. split; [|done].
        intros row0 rest [[[=] _]|(_ & [=] & _)].
      * intros _. split; discriminate.
Qed.
End UploadMore.

(** ** The session: what holds after any sequence of events *)

Section SessionFacts.
Context (ss : SS.exports) (ml : ML.exports).
Variable Number_toString : float → string.

Abbreviation step := (Session_step ss ml Number_toString).
Abbreviation run := (Session_run ss ml Number_toString).

(** A data set that [processParsedData] made. *)
Definition processed (ds : DataSet) : Prop :=
  ∃ row0 rest (st0 : AppState ml),
    dataSet ml (processParsedData ml Number_toString (row0 :: rest) st0).1 = Some ds.

Definition Session_ok (s : Session ml) : Prop :=
  let st := app ml (page ml s) in
  (is_Some (trainer ml s) ↔ is_Some (dataSet ml st)) ∧
  (is_Some (predictor ml (page ml s)) ↔ is_Some (trained ml st)) ∧
  (∀ ds, dataSet ml st = Some ds → processed ds) ∧
  (∀ t, trained ml st = Some t →
     ∃ ds, dataSet ml st = Some ds ∧
           dependentVar ml t ≠ "" ∧ independentVars ml t ≠ [] ∧
           ∀ v, v ∈ dependentVar ml t :: independentVars ml t → v ∈ numericHeaders ds).

Lemma render_mounted (st : AppState ml) (mounted : option (PredictorState)) :
  is_Some (predictor ml (render ml st mounted)) ↔ is_Some (trained ml st).
Proof.
  unfold render. cbn. destruct (trained ml st), mounted; cbn;
    split; intros H; try done; eauto; by apply is_Some_None in H.
Qed.

Lemma render_trainer_mounted (st : AppState ml) (mounted : option ModelTrainer.state) :
  is_Some (render_trainer ml st mounted) ↔ is_Some (dataSet ml st).
Proof.
  unfold render_trainer. destruct (dataSet ml st), mounted; cbn;
    split; intros H; try done; eauto; by apply is_Some_None in H.
Qed.

(** A fit that shows no alert went past the two guards. *)
Lemma fit_success_guards (ds : DataSet) (dep : string) (indep : list string)
    (st : AppState ml) :
  (handleTrainModel ss ml ds dep indep st).2 = [] →
  dep ≠ "" ∧ indep ≠ [] ∧ (length indep + 2 ≤ length (cleanData ds dep indep))%nat.
Proof.
  unfold handleTrainModel. cbv zeta.
  destruct (bool_decide (dep = "") || bool_decide (length indep = 0%nat)) eqn:Hg;
    [discriminate|].
  apply orb_false_iff in Hg as [Hd%bool_decide_eq_false Hi%bool_decide_eq_false].
  destruct (length (cleanData ds dep indep) <? length indep + 2)%nat eqn:Hn;
    [discriminate|]. apply Nat.ltb_ge in Hn.
  intros _. split; [done|]. split; [by intros ->|done].
Qed.

(** On a processed data set a fit that shows no alert used numeric headers
    only. *)
Lemma fit_success_numeric (ds : DataSet) (dep : string) (indep : list string)
    (st : AppState ml) (v : string) :
  processed ds →
  (handleTrainModel ss ml ds dep indep st).2 = [] →
  v ∈ dep :: indep → v ∈ numericHeaders ds.
Proof.
  intros (row0 & rest & st0 & Hds) Hfit Hv.
  destruct (fit_success_guards ds dep indep st Hfit) as (_ & _ & Hn).
  destruct (decide (v ∈ numericHeaders ds)) as [|Hnum]; [done|]. exfalso.
  rewrite (cleanData_nil ds dep indep v Hv) in Hn; [cbn in Hn; lia|].
  intros row Hrow. by eapply not_numeric_not_clean.
Qed.

Lemma Session_ok_init : Session_ok (Session_init ml).
Proof.
  unfold Session_ok, Session_init. cbn.
  split; [done|]. split; [done|]. split; intros ? [=].
Qed.

Lemma Session_ok_intro (st : AppState ml) (ps : option PredictorState)
    (tr : option ModelTrainer.state) :
  (is_Some tr ↔ is_Some (dataSet ml st)) →
  (∀ ds, dataSet ml st = Some ds → processed ds) →
  (∀ t, trained ml st = Some t →
     ∃ ds, dataSet ml st = Some ds ∧
           dependentVar ml t ≠ "" ∧ independentVars ml t ≠ [] ∧
           ∀ v, v ∈ dependentVar ml t :: independentVars ml t → v ∈ numericHeaders ds) →
  Session_ok {| page := render ml st ps; trainer := tr |}.
Proof.
  intros Htr Hds Ht. unfold Session_ok. cbn [page trainer].
  split; [exact Htr|]. split; [apply render_mounted|]. split; [exact Hds|exact Ht].
Qed.

Lemma Session_ok_step (s : Session ml) (ev : SessionEvent) :
  Session_ok s → Session_ok (step s ev).1.
Proof.
  intros Hok.
  destruct ev as [rows|ev| |ev]; unfold Session_step.
  - destruct Hok as (Htr & Hpr & Hds & Ht). destruct rows as [|row0 rest].
    + change (processParsedData ml Number_toString [] (app ml (page ml s)))
        with (setIsLoading ml false (app ml (page ml s)), [EmptyDatasetError]).
      cbv beta iota. cbn [fst].
      apply Session_ok_intro; [apply render_trainer_mounted|exact Hds|exact Ht].
    + destruct (processParsedData_success ml Number_toString row0 rest
                  (app ml (page ml s))) as [ds Hnew].
      rewrite Hnew. cbn [fst].
      apply Session_ok_intro; [apply render_trainer_mounted| |].
      * cbn. intros ds' [= <-]. exists row0, rest, (app ml (page ml s)).
        by rewrite Hnew.
      * cbn. intros t [=].
  - destruct (dataSet ml (app ml (page ml s))) as [ds|] eqn:Ed; [|done].
    destruct (trainer ml s) as [t|] eqn:Et; [|done].
    destruct Hok as (Htr & Hpr & Hds & Ht).
    cbn [fst]. unfold Session_ok. cbn [page trainer].
    assert (Hsame : ∀ pg : Page ml,
              pg = match ev with
                   | ModelTrainer.Suggested dep indep =>
                       {| app := setVariableSuggestions ml (dep, indep) (app ml (page ml s));
                          predictor := predictor ml (page ml s) |}
                   | _ => page ml s
                   end →
              dataSet ml (app ml pg) = dataSet ml (app ml (page ml s)) ∧
              trained ml (app ml pg) = trained ml (app ml (page ml s)) ∧
              predictor ml pg = predictor ml (page ml s)).
    { intros pg ->. by destruct ev. }
    destruct (Hsame _ eq_refl) as (-> & -> & ->).
    split; [rewrite Ed; split; eauto|]. done.
  - destruct (dataSet ml (app ml (page ml s))) as [ds|] eqn:Ed; [|done].
    destruct (trainer ml s) as [t|] eqn:Et; [|done].
    destruct Hok as (Htr & Hpr & Hds & Ht).
    assert (Hmounted : is_Some (Some t) ↔ is_Some (dataSet ml (app ml (page ml s)))).
    { rewrite Ed. split; eauto. }
    unfold ModelTrainer.trainClick.
    destruct (ModelTrainer.trainDisabled t).
    { cbv beta iota zeta. cbn [fst]. by apply Session_ok_intro. }
    pose proof (handleTrainModel_outcome ss ml ds (ModelTrainer.dependentVar t)
                  (ModelTrainer.independentVars t) (app ml (page ml s))) as Hout.
    pose proof (fit_success_guards ds (ModelTrainer.dependentVar t)
                  (ModelTrainer.independentVars t) (app ml (page ml s))) as Hguards.
    pose proof (λ v, fit_success_numeric ds (ModelTrainer.dependentVar t)
                  (ModelTrainer.independentVars t) (app ml (page ml s)) v
                  (Hds ds Ed)) as Hnum.
    cbv zeta in Hout.
    destruct (handleTrainModel ss ml ds _ _ _) as [st' alerts]. cbn [fst snd] in *.
    destruct Hout as [[-> (m & res & _ & ->)]|[-> _]].
    + destruct (Hguards eq_refl) as (Hd & Hi & _).
      apply Session_ok_intro; [exact Hmounted|exact Hds|].
      cbn. intros t' [= <-]. exists ds. cbn. split; [done|]. split; [done|].
      split; [done|]. intros v. by apply Hnum.
    + by apply Session_ok_intro.
  - destruct ev as [varName value|].
    + destruct Hok as (Htr & Hpr & Hds & Ht).
      unfold Session_ok. cbn. split; [done|]. split; [by rewrite fmap_is_Some|]. done.
    + unfold Page_predict.
      destruct (trained ml (app ml (page ml s))) as [t|] eqn:Etr; [|done].
      destruct (predictor ml (page ml s)) as [ps|] eqn:Eps; [|done].
      destruct Hok as (Htr & Hpr & Hds & Ht).
      destruct (handlePredict ml (model ml t) (independentVars ml t) ps) as [ps' alerts].
      unfold Session_ok. cbn. split; [done|]. rewrite Etr.
      split; [split; eauto|]. split; [done|].
      intros t' [= <-]. by apply Ht.
Qed.

Lemma Session_run_fst (s : Session ml) (shown : list Alert) (events : list SessionEvent) :
  (foldl (λ '(s, shown) ev, let '(s', alerts) := step s ev in (s', shown ++ alerts))
         (s, shown) events).1
  = foldl (λ s ev, (step s ev).1) s events.
Proof.
  revert s shown. induction events as [|ev events IH]; intros s shown; [done|].
  cbn [foldl]. destruct (step s ev) as [s' alerts]. by rewrite IH.
Qed.

End SessionFacts.

Section SessionUpload.
Context (ss : SS.exports) (ml : ML.exports).
Variable Number_toString : float → string.

Lemma fit_without_clean_rows (ds : DataSet) (dep : string) (indep : list string)
    (st : AppState ml) :
  dep ≠ "" → indep ≠ [] → cleanData ds dep indep = [] →
  handleTrainModel ss ml ds dep indep st = (st, [InsufficientDataError]).
Proof.
  intros Hd Hi Hc. unfold handleTrainModel. cbv zeta.
  rewrite (selection_guard dep indep Hd Hi), Hc.
  rewrite (proj2 (Nat.ltb_lt _ _)); [done|]. cbn [length]. lia.
Qed.

Lemma Session_step_upload (s : Session ml) (row0 : DataRow) (rest : list DataRow) :
  ∃ ds,
    dataSet ml (processParsedData ml Number_toString (row0 :: rest)
                  (app ml (page ml s))).1 = Some ds ∧
    Session_step ss ml Number_toString s (Upload (row0 :: rest))
    = ({| page := {| app := {| isLoading := false; dataSet := Some ds; trained := None;
                               variableSuggestions := None |};
                     predictor := None |};
          trainer := Some (default ModelTrainer.initial (trainer ml s)) |}, []).
Proof.
  destruct (processParsedData_success ml Number_toString row0 rest (app ml (page ml s)))
    as [ds Hnew].
  exists ds. rewrite Hnew. split; [done|]. unfold Session_step. rewrite Hnew.
  unfold render, render_trainer. cbn. by destruct (trainer ml s).
Qed.

End SessionUpload.

(** ** [Predictor]: editing the inputs *)

(** X16.  An edit of a field stores the number read for that variable and
    touches nothing else: the other inputs stay, and so does the
    prediction on display, which is not cleared and may thus belong to
    inputs that have changed since.  The last edit of a variable wins,
    edits of different variables commute, and a press on the button never
    changes the inputs; a second press shows the same outcome. *)
Theorem handleInputChange_frame (ml : ML.exports) (m : ML.Model ml)
    (independentVars : list string) (a b va vb : string) (ps : PredictorState) :
  let ps' := handleInputChange a va ps in
  inputs ps' !! a = Some (input_number va) ∧
  (∀ v, v ≠ a → inputs ps' !! v = inputs ps !! v) ∧
  prediction ps' = prediction ps ∧
  handleInputChange a vb ps' = handleInputChange a vb ps ∧
  (a ≠ b → handleInputChange a va (handleInputChange b vb ps)
           = handleInputChange b vb ps') ∧
  inputs (handlePredict ml m independentVars ps).1 = inputs ps ∧
  handlePredict ml m independentVars (handlePredict ml m independentVars ps).1
    = handlePredict ml m independentVars ps.
Proof.
  cbv zeta. unfold handleInputChange. cbn [inputs prediction].
  split; [apply lookup_insert_eq|].
  split; [intros v Hv; by apply lookup_insert_ne|].
  split; [done|].
  split; [by rewrite insert_insert_eq|].
  split; [intros Hab; by rewrite insert_insert_ne|].
  unfold handlePredict. cbv zeta.
  destruct (existsb isNaN (input_at (inputs ps) <$> independentVars)) eqn:E;
    cbn [fst inputs]; rewrite ?E; done.
Qed.

(** ** Correlation: the values of the matrix *)

Lemma ordered_pairs_app_r (l1 l2 : list string) (x : string * string) :
  x ∈ ordered_pairs l2 → x ∈ ordered_pairs (l1 ++ l2).
Proof.
  intros Hx. induction l1 as [|h l1 IH]; [done|].
  simpl. rewrite elem_of_app. by right.
Qed.

Lemma ordered_pairs_later (p t : list string) (h k : string) :
  k ∈ t → (h, k) ∈ ordered_pairs (p ++ h :: t).
Proof.
  intros Hk. apply ordered_pairs_app_r. simpl.
  rewrite elem_of_app. left. by apply list_elem_of_fmap_2.
Qed.

Lemma ordered_pairs_distinct (l : list string) (a b : string) :
  NoDup l → (a, b) ∈ ordered_pairs l → a ≠ b.
Proof.
  induction 1 as [|h t Hh Ht IH]; simpl.
  - by intros ?%elem_of_nil.
  - rewrite elem_of_app, list_elem_of_fmap. intros [(x & [= -> ->] & Hx)|Hab]; [|auto].
    by intros ->.
Qed.

Section CorrelationMore.
Context (ss : SS.exports) (data : list DataRow).
Implicit Types (matrix : gmap string (gmap string float)).

(** Every entry off the diagonal is the correlation of the two columns
    taken in the order of the headers. *)
Definition valued (nh : list string) matrix : Prop :=
  ∀ a b r, a ≠ b → matrix_at matrix a b = Some r →
    ((a, b) ∈ ordered_pairs nh ∧
     SS.sampleCorrelation ss (column data a) (column data b) = Some r) ∨
    ((b, a) ∈ ordered_pairs nh ∧
     SS.sampleCorrelation ss (column data b) (column data a) = Some r).

Lemma valued_step (p t : list string) matrix calls (h1 : string) (s : corr_state) :
  let nh := p ++ h1 :: t in
  filled nh p matrix → valued nh matrix →
  correlation_row ss data nh (matrix, calls) h1 = Some s →
  valued nh s.1.
Proof.
  intros nh (Ha & Hb & _ & _) Hval. rewrite correlation_row_spec.
  destruct (forallb _ nh) eqn:Hret; [|discriminate]. intros [= <-]. cbn [fst].
  assert (Hh1 : h1 ∈ nh).
  { unfold nh. rewrite elem_of_app. right. by left. }
  intros a b r Hab. unfold matrix_at.
  destruct (decide (h1 = a)) as [<-|Hne].
  - rewrite lookup_insert_eq. cbn [mbind option_bind].
    rewrite filled_row_lookup, lookup_empty.
    case_bool_decide as Hb'; [|discriminate].
    unfold cell_value. rewrite decide_False by done.
    destruct (matrix_at matrix b h1) as [mirrored|] eqn:Hm.
    + intros [= <-]. destruct (Hval b h1 mirrored) as [?|?]; auto.
    + assert (Hcell : cell_returns ss data matrix h1 b = true).
      { rewrite forallb_forall in Hret. by apply Hret, list_elem_of_In. }
      unfold cell_returns in Hcell. rewrite Hm in Hcell.
      rewrite (bool_decide_false (h1 = b)) in Hcell by done.
      rewrite (bool_decide_false (is_Some None)) in Hcell
        by (by intros []%is_Some_None).
      cbn [orb] in Hcell. apply bool_decide_eq_true in Hcell as [r' Hr'].
      rewrite Hr'. cbn [default]. intros [= <-]. left. split; [|done].
      apply ordered_pairs_later.
      apply elem_of_app in Hb' as [Hp|Ht].
      * exfalso. destruct (proj2 (Ha b) Hp) as [row Hrow].
        destruct (proj2 (Hb b row Hrow h1) Hh1) as [x Hx].
        unfold matrix_at in Hm. rewrite Hrow in Hm. cbn in Hm. congruence.
      * apply elem_of_cons in Ht as [->|Ht]; done.
  - rewrite lookup_insert_ne by done. by apply Hval.
Qed.

Lemma valued_empty (nh : list string) : valued nh ∅.
Proof. intros a b r _. unfold matrix_at. by rewrite lookup_empty. Qed.

Lemma correlation_rows_values (p q : list string) matrix calls (r : corr_state) :
  let nh := p ++ q in
  filled nh p matrix → valued nh matrix →
  foldl (λ acc h1, acc ≫= λ s, correlation_row ss data nh s h1)
        (Some (matrix, calls)) q = Some r →
  valued nh r.1.
Proof.
  cbv zeta. revert p matrix calls.
  induction q as [|h1 t IH]; intros p matrix calls Hf Hv; cbn [foldl].
  - by intros [= <-].
  - cbn [mbind option_bind].
    destruct (correlation_row ss data (p ++ h1 :: t) (matrix, calls) h1)
      as [[matrix' calls']|] eqn:E.
    2:{ rewrite foldl_bind_None. discriminate. }
    assert (Hh1 : h1 ∈ p ++ h1 :: t) by (rewrite elem_of_app; right; by left).
    assert (Hp : p ⊆ p ++ h1 :: t) by (intros x Hx; rewrite elem_of_app; by left).
    pose proof (filled_step ss data _ p matrix calls h1 _ Hp Hh1 Hf E) as Hf'.
    pose proof (valued_step p t matrix calls h1 _ Hf Hv E) as Hv'.
    cbn [fst] in Hf', Hv'.
    assert (Heq : p ++ h1 :: t = (p ++ [h1]) ++ t) by (by rewrite <- app_assoc).
    rewrite Heq in *. by apply IH.
Qed.

(** The loop returns when [sampleCorrelation] returns on the pairs taken
    in the order of the headers. *)
Lemma correlation_rows_return_ordered (p q : list string) matrix calls :
  let nh := p ++ q in
  filled nh p matrix →
  (∀ a b, (a, b) ∈ ordered_pairs nh →
          is_Some (SS.sampleCorrelation ss (column data a) (column data b))) →
  is_Some (foldl (λ acc h1, acc ≫= λ s, correlation_row ss data nh s h1)
                 (Some (matrix, calls)) q).
Proof.
  cbv zeta. revert p matrix calls.
  induction q as [|h1 t IH]; intros p matrix calls Hf Hsc; cbn [foldl]; [eauto|].
  cbn [mbind option_bind].
  assert (Hh1 : h1 ∈ p ++ h1 :: t) by (rewrite elem_of_app; right; by left).
  assert (Hp : p ⊆ p ++ h1 :: t) by (intros x Hx; rewrite elem_of_app; by left).
  destruct (correlation_row ss data (p ++ h1 :: t) (matrix, calls) h1)
    as [[matrix' calls']|] eqn:E.
  - pose proof (filled_step ss data _ p matrix calls h1 _ Hp Hh1 Hf E) as Hf'.
    cbn [fst] in Hf'.
    assert (Heq : p ++ h1 :: t = (p ++ [h1]) ++ t) by (by rewrite <- app_assoc).
    rewrite Heq in *. by apply IH.
  - exfalso. rewrite correlation_row_spec in E.
    assert (forallb (cell_returns ss data matrix h1) (p ++ h1 :: t) = true) as Hall;
      [|by rewrite Hall in E].
    destruct Hf as (Ha & Hb & _ & _).
    apply forallb_forall. intros h2 Hh2%list_elem_of_In. unfold cell_returns.
    destruct (decide (h1 = h2)) as [->|Hne]; [by rewrite bool_decide_true|].
    apply elem_of_app in Hh2 as [Hin|Hin].
    + destruct (proj2 (Ha h2) Hin) as [row Hrow].
      destruct (proj2 (Hb h2 row Hrow h1) Hh1) as [x Hx].
      rewrite (bool_decide_true (is_Some (matrix_at matrix h2 h1))).
      * by rewrite orb_true_r.
      * unfold matrix_at. rewrite Hrow. cbn. eauto.
    + apply elem_of_cons in Hin as [->|Hin]; [done|].
      rewrite (bool_decide_true (is_Some (SS.sampleCorrelation _ _ _))).
      * by rewrite !orb_true_r.
      * by apply Hsc, ordered_pairs_later.
Qed.
End CorrelationMore.


(** ** Model training: the residuals *)

Section Residuals.
Context (ml : ML.exports).

Lemma residuals_from (g : DataRow → value) (h : DataRow → float)
    (pre rows : list DataRow) (acc : float) :
  foldl (λ acc '(i, val),
           (acc + Math_pow2 (ToNumber val - number_at (h <$> pre ++ rows) i))%float)
        acc (imap (λ i v, ((length pre + i)%nat, v)) (g <$> rows))
  = foldl (λ acc row, (acc + Math_pow2 (ToNumber (g row) - h row))%float) acc rows.
Proof.
  revert pre acc. induction rows as [|row rows IH]; intros pre acc; [done|].
  rewrite fmap_cons, imap_cons. cbn [foldl].
  assert (Hat : number_at (h <$> pre ++ row :: rows) (length pre + 0) = h row).
  { unfold number_at. rewrite list_lookup_fmap, Nat.add_0_r.
    by rewrite list_lookup_middle. }
  rewrite Hat.
  rewrite (imap_ext _ (λ i v, ((length (pre ++ [row]) + i)%nat, v))).
  - replace (pre ++ row :: rows) with ((pre ++ [row]) ++ rows)
      by (by rewrite <- app_assoc).
    apply IH.
  - intros i x _. cbn. rewrite length_app. cbn. f_equal. lia.
Qed.

(** X18.  The residual sum of squares of a fit pairs the response of each
    clean row with the prediction made for that same row: the indexed read
    [predictions[i]] never goes past the end, so no term is NaN for want of
    a prediction; likewise the total sum of squares runs over the clean
    rows. *)
Theorem residuals_aligned (ss : SS.exports) (ds : DataSet) (dep : string)
    (indep : list string) (m : ML.Model ml) :
  ssResidual_of (response ds dep indep) (ML.predict ml m <$> design ds dep indep)
  = foldl (λ acc row,
             (acc + Math_pow2 (ToNumber (row_get row dep)
                               - ML.predict ml m ((λ key, row_get row key) <$> indep)))%float)
          0%float (cleanData ds dep indep) ∧
  ssTotal_of (response ds dep indep) (SS.mean ss (response ds dep indep))
  = foldl (λ acc row,
             (acc + Math_pow2 (ToNumber (row_get row dep)
                               - SS.mean ss (response ds dep indep)))%float)
          0%float (cleanData ds dep indep) ∧
  (∀ i, (i < length (response ds dep indep))%nat →
        is_Some ((ML.predict ml m <$> design ds dep indep) !! i)).
Proof.
  split; [|split].
  - unfold ssResidual_of, response, design, column.
    rewrite <- list_fmap_compose.
    apply (residuals_from (λ row, row_get row dep)
             (ML.predict ml m ∘ (λ row, (λ key, row_get row key) <$> indep))
             [] (cleanData ds dep indep) 0%float).
  - unfold ssTotal_of. generalize (SS.mean ss (response ds dep indep)) as yMean.
    intros yMean. unfold response, column. generalize 0%float as acc.
    induction (cleanData ds dep indep) as [|row rows IH]; intros acc; [done|].
    rewrite fmap_cons. cbn [foldl]. apply IH.
  - intros i Hi. apply lookup_lt_is_Some.
    unfold response, design, column in *. by rewrite !length_fmap in *.
Qed.
End Residuals.

(** ** The further properties at concrete inputs *)

(** The data set made of [sales_csv]. *)
Definition sales : DataSet :=
{| data :=
     [[("region", VStr "north"); ("units", VNum 10); ("price", VStr "n/a")];
      [("region", VStr "south"); ("units", VNum 12); ("price", VNum 2.5)];
      [("region", VStr "east"); ("units", VNum 15); ("price", VNum 3)]];
   headers := ["region"; "units"; "price"];
   numericHeaders := ["units"; "price"] |}.

(** The data set made of [with_empty_cell]. *)
Definition empty_cell : DataSet :=
{| data := [[("a", VNum 1); ("b", VNum 2)]; [("a", VStr ""); ("b", VNum 3)]];
   headers := ["a"; "b"];
   numericHeaders := ["a"; "b"] |}.

(** The printing of numbers is not called on these files, whose cells are
    all texts. *)
Definition no_print (x : float) : string := "".

(** X2 on the first row of [sales_csv]: the price ["n/a"] stays a text. *)
Lemma processParsedData_cells_witness :
  let row := [("region", VStr "north"); ("units", VStr "10"); ("price", VStr "n/a")] in
  let row' := [("region", VStr "north"); ("units", VNum 10); ("price", VStr "n/a")] in
  dataSet (Stub.ml [])
    (processParsedData (Stub.ml []) no_print sales_csv (loaded _ line)).1 = Some sales ∧
  sales_csv !! 0%nat = Some row ∧
  data sales !! 0%nat = Some row' ∧
  (∀ s, row_get row "price" = VStr s →
        row_get row' "price" =
          if is_nan (parseFloat s) then VStr s else VNum (parseFloat s)) ∧
  (row_get row "price" = VUndefined → row_get row' "price" = VStr "undefined") ∧
  ((∃ x, row_get row' "price" = VNum x ∧ is_nan x = false) ∨
   (∃ s, row_get row' "price" = VStr s ∧ is_nan (parseFloat s) = true)).
Proof.
  cbv zeta. split; [reflexivity|]. split; [reflexivity|]. split; [reflexivity|].
  apply (processParsedData_cells (Stub.ml []) no_print
           [("region", VStr "north"); ("units", VStr "10"); ("price", VStr "n/a")]
           [[("region", VStr "south"); ("units", VStr "12"); ("price", VStr "2.5")];
            [("region", VStr "east"); ("units", VStr "15"); ("price", VStr "3")]]
           (loaded _ line) sales 0%nat);
    [reflexivity|reflexivity|reflexivity|].
  right. right. left.
Defined.

(** X3 on the column holding 1 and 3. *)
Lemma stats_entry_count_witness :
  ∃ e, stats SimpleStatistics.library one_three !! "a" = Some e ∧
       "a" ∈ numericHeaders one_three ∧
       ColumnStats.count e = length (stats_values (data one_three) "a") ∧
       (1 ≤ ColumnStats.count e ≤ length (data one_three))%nat ∧
       (length (cleanData one_three "a" []) ≤ ColumnStats.count e)%nat.
Proof.
  eexists. split; [vm_compute; reflexivity|].
  apply (stats_entry_count SimpleStatistics.library one_three "a").
  vm_compute. reflexivity.
Defined.

(** X4 on [sales_csv]: the column of prices has an entry. *)
Lemma stats_of_processed_keys_witness :
  dataSet (Stub.ml [])
    (processParsedData (Stub.ml []) no_print sales_csv (loaded _ line)).1 = Some sales ∧
  (is_Some (stats SimpleStatistics.library sales !! "price")
   ↔ "price" ∈ numericHeaders sales).
Proof.
  split; [reflexivity|].
  apply (stats_of_processed_keys SimpleStatistics.library (Stub.ml []) no_print
           [("region", VStr "north"); ("units", VStr "10"); ("price", VStr "n/a")]
           [[("region", VStr "south"); ("units", VStr "12"); ("price", VStr "2.5")];
            [("region", VStr "east"); ("units", VStr "15"); ("price", VStr "3")]]
           (loaded _ line) sales "price").
  reflexivity.
Defined.


(** X6 on [sales_csv]: a fit of the units on the region, a text column. *)
Lemma fit_needs_numeric_headers_witness :
  dataSet (Stub.ml [])
    (processParsedData (Stub.ml []) no_print sales_csv (loaded _ line)).1 = Some sales ∧
  cleanData sales "units" ["region"] = [] ∧
  handleTrainModel SimpleStatistics.library (Stub.ml []) sales "units" ["region"]
      (loaded _ sales)
    = (loaded _ sales, [InsufficientDataError]).
Proof.
  split; [reflexivity|].
  apply (fit_needs_numeric_headers SimpleStatistics.library (Stub.ml []) no_print
           [("region", VStr "north"); ("units", VStr "10"); ("price", VStr "n/a")]
           [[("region", VStr "south"); ("units", VStr "12"); ("price", VStr "2.5")];
            [("region", VStr "east"); ("units", VStr "15"); ("price", VStr "3")]]
           (loaded _ line) sales "units" ["region"] (loaded _ sales) "region").
  - reflexivity.
  - discriminate.
  - discriminate.
  - right. left.
  - intros Hin%list_elem_of_In. vm_compute in Hin. intuition discriminate.
Defined.

(** X8 on the three rows of [line]. *)
Lemma successful_fit_witness :
  let fit := handleTrainModel SimpleStatistics.library Stub.unit_slopes line "y" ["x"]
               (loaded _ line) in
  fit.2 = [] ∧
  "y" ≠ "" ∧ ["x"] ≠ [] ∧
  (length ["x"] + 2 ≤ length (cleanData line "y" ["x"]))%nat ∧
  ∃ m w0 ws res,
    ML.construct Stub.unit_slopes (design line "y" ["x"]) (response line "y" ["x"])
      = Some m ∧
    ML.weights Stub.unit_slopes m = w0 :: ws ∧
    (∀ w, w ∈ w0 :: ws → ∃ x, first_weight w = VNum x ∧ is_nan x = false) ∧
    (ssTotal_of (response line "y" ["x"])
       (SS.mean SimpleStatistics.library (response line "y" ["x"])) =? 0)%float = false ∧
    fit.1 = handleModelTrain Stub.unit_slopes m res ["x"] "y" (loaded _ line) ∧
    intercept res = first_weight w0 ∧
    coefficients res = concat ws.
Proof.
  cbv zeta. split; [vm_compute; reflexivity|].
  apply (successful_fit SimpleStatistics.library Stub.unit_slopes line "y" ["x"]
           (loaded _ line)).
  vm_compute. reflexivity.
Defined.

(** X10 on [plane]: a choice, a box, and a suggestion that names a
    variable the data set does not have. *)
Lemma selection_stays_valid_witness :
  let s := foldl (ModelTrainer.step plane) ModelTrainer.initial
             [ModelTrainer.ChooseDependent "y"; ModelTrainer.ToggleIndependent "x";
              ModelTrainer.Suggested "y" ["z"; "q"; "y"]] in
  valid_selection plane ModelTrainer.initial ∧
  (ModelTrainer.dependentVar s = "" ∨ ModelTrainer.dependentVar s ∈ numericHeaders plane) ∧
  (∀ v, v ∈ ModelTrainer.independentVars s →
        v ∈ numericHeaders plane ∧ v ≠ ModelTrainer.dependentVar s) ∧
  (NoDup (ModelTrainer.independentVars ModelTrainer.initial) →
   (∀ dep indep,
      ModelTrainer.Suggested dep indep
        ∈ [ModelTrainer.ChooseDependent "y"; ModelTrainer.ToggleIndependent "x";
           ModelTrainer.Suggested "y" ["z"; "q"; "y"]] → NoDup indep) →
   NoDup (ModelTrainer.independentVars s)).
Proof.
  cbv zeta.
  assert (Hinit : valid_selection plane ModelTrainer.initial).
  { split; [by left|]. intros v Hv. by apply elem_of_nil in Hv. }
  split; [exact Hinit|].
  exact (selection_stays_valid plane ModelTrainer.initial
           [ModelTrainer.ChooseDependent "y"; ModelTrainer.ToggleIndependent "x";
            ModelTrainer.Suggested "y" ["z"; "q"; "y"]] Hinit).
Defined.

(** X12 on the steps 3 and 6 once data are loaded. *)
Lemma getStepStatus_ordered_witness :
  (1 ≤ 3 ∧ 3 ≤ 6) ∧
  status_rank (getStepStatus true false 3) ≤ status_rank (getStepStatus true false 6) ∧
  (status_rank (getStepStatus true true 3)
     ≤ status_rank (getStepStatus true false 3)
     ≤ status_rank (getStepStatus false false 3)) ∧
  (5 < 3 ≤ 7 → getStepStatus true false 3 ≠ active) ∧
  getStepStatus true true 3 ≠ pending ∧
  getStepStatus false false 3 = getStepStatus false false 3.
Proof.
  split; [lia|]. apply (getStepStatus_ordered true false 3 6); lia.
Defined.


